(** * Honey Points strategy engine and sent-token ledger

    A shallow embedding of [userStrategy.ts] (the staged auto-trading pass
    over a user's tracked tokens) and of the sent-token ledger of
    [telegramBot.ts] ([hashTokenAddress], [readSentHashes],
    [appendSentHash]).

    Modelling conventions.
    - A JavaScript [number] holding a price, an amount or a percentage is an
      IEEE-754 binary64 value: Rocq's primitive [float], with its own
      rounding, comparisons and NaN.
    - A stage index is a natural number; a millisecond timestamp is a [Z].
    - An optional property ([lastEntryPrice?: number]) is an [option]; the
      value [undefined] is [None].
    - A promise that may reject is a function on an explicit world state that
      returns [None] for a rejection.
    - The [users] object and the per-user ledger files are finite maps keyed
      by the user id. *)

From Stdlib Require Import Floats ZArith NArith Ascii String.
From stdpp Require Import gmap strings list pretty.

Local Open Scope Z_scope.

(** ** JavaScript primitives used by both files *)

Module JS.

(** [!!x] for a number: false exactly for [0], [-0] and [NaN]. *)
Definition truthyNum (x : float) : bool :=
  negb (PrimFloat.eqb x 0%float || PrimFloat.is_nan x).

(** [!!x] for an optional number ([undefined] is falsy). *)
Definition truthyOptNum (x : option float) : bool :=
  match x with
  | Some v => truthyNum v
  | None => false
  end.

(** [!!s] for a string: false exactly for the empty string. *)
Definition truthyStr (s : string) : bool :=
  match s with
  | EmptyString => false
  | String _ _ => true
  end.

(** [!!b] for an optional boolean. *)
Definition truthyOptBool (b : option bool) : bool :=
  match b with
  | Some v => v
  | None => false
  end.

(** A number read from an optional property inside an arithmetic
    expression: [undefined] converts to [NaN]. *)
Definition toNumber (x : option float) : float :=
  match x with
  | Some v => v
  | None => PrimFloat.nan
  end.

(** A string is the sequence of its UTF-16 code units. *)
Abbreviation JSString := (list N).


(** White space and line terminators removed by [String.prototype.trim]:
    TAB, LF, VT, FF, CR, SPACE, NO-BREAK SPACE, U+1680, U+2000..U+200A,
    U+2028, U+2029, U+202F, U+205F, U+3000 and U+FEFF. *)
Definition isWhiteSpace (c : N) : bool :=
  ((9 <=? c) && (c <=? 13) || (c =? 32) || (c =? 160) || (c =? 5760)
   || (8192 <=? c) && (c <=? 8202) || (c =? 8232) || (c =? 8233)
   || (c =? 8239) || (c =? 8287) || (c =? 12288) || (c =? 65279))%N.




(** *** Lower case

    [String.prototype.toLowerCase] follows the Unicode case mappings, one of
    which depends on the context: capital sigma becomes final sigma at the
    end of a word. It is spelled out here for the strings made of the code
    units below 256 and of the three sigmas; on any other string it is the
    built-in itself, taken as given. *)

Definition capitalSigma : N := 931.


(** Letters of the repertoire with a lower-case counterpart, 32 code units
    up: A-Z, U+00C0..U+00DE without the multiplication sign U+00D7, and
    capital sigma. *)
Definition isUpperCase (c : N) : bool :=
  ((65 <=? c) && (c <=? 90)
   || (192 <=? c) && (c <=? 222) && negb (c =? 215)
   || (c =? capitalSigma))%N.

Definition lowerOf (c : N) : N := (c + 32)%N.







Section Lowercase.

(** The built-in on a string with a code unit outside the repertoire. *)
Variable unicodeLower : JSString -> JSString.


End Lowercase.

End JS.

(** ** userStrategy.ts *)

Module UserStrategy.

Inductive Status := pending | active | sold | error.

Record HoneyToken := mkToken {
  address : string;
  buyAmount : float;
  profitPercents : list float;
  soldPercents : list float;
  lastEntryPrice : option float;
  lastSellPrice : option float;
  finished : option bool;
  status : option Status;
  currentStage : option nat;
  lastTxId : option string
}.

(** The normalised settings returned by [getHoneySettings]. *)
Record HoneySettings := mkSettings {
  tokens : list HoneyToken;
  repeatOnEntry : bool
}.

(** [users[userId].honeySettings] as stored: [storedTokens] is [None] when
    the property is not an array, [storedRepeat] is [None] when it is not a
    boolean. *)
Record StoredSettings := mkStored {
  storedTokens : option (list HoneyToken);
  storedRepeat : option bool
}.

(** A user record: the wallet secret, the strategy settings, and the other
    properties of the record, which this file never touches. *)
Record User := mkUser {
  secret : option string;
  honeySettings : option StoredSettings;
  profile : gmap string string
}.

Abbreviation Users := (gmap string User).

(** The result of a call that may throw. *)
Inductive Outcome :=
| Returned
| Thrown (message : string).

(** *** Field assignments *)

Definition setStatus (s : Status) (t : HoneyToken) : HoneyToken :=
  mkToken (address t) (buyAmount t) (profitPercents t) (soldPercents t)
    (lastEntryPrice t) (lastSellPrice t) (finished t) (Some s)
    (currentStage t) (lastTxId t).

Definition setLastEntryPrice (p : option float) (t : HoneyToken) : HoneyToken :=
  mkToken (address t) (buyAmount t) (profitPercents t) (soldPercents t)
    p (lastSellPrice t) (finished t) (status t) (currentStage t) (lastTxId t).

Definition setLastSellPrice (p : option float) (t : HoneyToken) : HoneyToken :=
  mkToken (address t) (buyAmount t) (profitPercents t) (soldPercents t)
    (lastEntryPrice t) p (finished t) (status t) (currentStage t) (lastTxId t).

Definition setFinished (b : bool) (t : HoneyToken) : HoneyToken :=
  mkToken (address t) (buyAmount t) (profitPercents t) (soldPercents t)
    (lastEntryPrice t) (lastSellPrice t) (Some b) (status t)
    (currentStage t) (lastTxId t).

Definition setCurrentStage (n : nat) (t : HoneyToken) : HoneyToken :=
  mkToken (address t) (buyAmount t) (profitPercents t) (soldPercents t)
    (lastEntryPrice t) (lastSellPrice t) (finished t) (status t)
    (Some n) (lastTxId t).

Definition setLastTxId (x : option string) (t : HoneyToken) : HoneyToken :=
  mkToken (address t) (buyAmount t) (profitPercents t) (soldPercents t)
    (lastEntryPrice t) (lastSellPrice t) (finished t) (status t)
    (currentStage t) x.

(** *** Settings store *)

Definition defaultSettings : HoneySettings := mkSettings [] true.

Definition getHoneySettings (userId : string) (users : Users) : HoneySettings :=
  match users !! userId with
  | None => defaultSettings
  | Some u =>
      match honeySettings u with
      | None => defaultSettings
      | Some st =>
          mkSettings
            (match storedTokens st with Some l => l | None => [] end)
            (match storedRepeat st with Some b => b | None => true end)
      end
  end.

Definition emptyUser : User := mkUser None None ∅.

Definition store (settings : HoneySettings) : StoredSettings :=
  mkStored (Some (tokens settings)) (Some (repeatOnEntry settings)).

Definition setHoneySettings (userId : string) (settings : HoneySettings)
    (users : Users) : Users :=
  let u := match users !! userId with Some u => u | None => emptyUser end in
  <[userId := mkUser (secret u) (Some (store settings)) (profile u)]> users.

Definition capacityMessage : string := "Maximum 10 tokens allowed.".
Definition duplicateMessage : string := "Token already exists in strategy.".
Definition walletMessage : string := "Wallet not found".

Definition hasAddress (a : string) (l : list HoneyToken) : bool :=
  existsb (fun t => String.eqb (address t) a) l.

Definition addHoneyToken (userId : string) (token : HoneyToken)
    (users : Users) : Outcome * Users :=
  let settings := getHoneySettings userId users in
  if (10 <=? length (tokens settings))%nat then (Thrown capacityMessage, users)
  else if hasAddress (address token) (tokens settings)
  then (Thrown duplicateMessage, users)
  else (Returned,
        setHoneySettings userId
          (mkSettings (tokens settings ++ [token]) (repeatOnEntry settings))
          users).

Definition removeHoneyToken (userId tokenAddress : string) (users : Users) : Users :=
  let settings := getHoneySettings userId users in
  setHoneySettings userId
    (mkSettings
       (List.filter (fun t => negb (String.eqb (address t) tokenAddress))
          (tokens settings))
       (repeatOnEntry settings))
    users.

Definition resetHoneyTokens (userId : string) (users : Users) : Users :=
  setHoneySettings userId defaultSettings users.

(** *** The trading pass *)

(** The validation gate at the head of the loop body. *)
Definition missingData (t : HoneyToken) : bool :=
  negb (JS.truthyStr (address t)) || negb (JS.truthyNum (buyAmount t))
  || (length (profitPercents t) =? 0)%nat || (length (soldPercents t) =? 0)%nat.

(** [token.profitPercents[i]], [undefined] out of range. *)
Definition percentAt (l : list float) (i : nat) : float := JS.toNumber (l !! i).

Definition target (i : nat) (t : HoneyToken) : float :=
  (JS.toNumber (lastEntryPrice t) * (1 + percentAt (profitPercents t) i / 100))%float.

Definition sellAmount (i : nat) (t : HoneyToken) : float :=
  (buyAmount t * (percentAt (soldPercents t) i / 100))%float.

(** The condition guarding the sale of stage [i]. *)
Definition stageFires (currentPrice : float) (i : nat) (t : HoneyToken) : bool :=
  PrimFloat.leb (target i t) currentPrice
  && (negb (JS.truthyOptNum (lastSellPrice t))
      || match lastSellPrice t with
         | Some l => PrimFloat.ltb l currentPrice
         | None => false
         end).

(** The assignments after a successful sale of stage [i]. *)
Definition afterSell (currentPrice : float) (i : nat) (txId : string)
    (t : HoneyToken) : HoneyToken :=
  let t1 := setLastTxId (Some txId)
              (setCurrentStage (S i) (setLastSellPrice (Some currentPrice) t)) in
  if (length (profitPercents t1) <=? S i)%nat
  then setStatus sold (setFinished true t1)
  else t1.

(** The assignments after a successful initial buy. *)
Definition afterBuy (currentPrice : float) (txId : string) (t : HoneyToken) : HoneyToken :=
  setLastTxId (Some txId)
    (setCurrentStage 0 (setStatus active (setLastEntryPrice (Some currentPrice) t))).

(** The in-place reset of the repeat-on-entry branch. *)
Definition rearm (t : HoneyToken) : HoneyToken :=
  setLastTxId None
    (setCurrentStage 0
       (setStatus pending
          (setLastSellPrice None (setLastEntryPrice None (setFinished false t))))).

Definition totalSold (t : HoneyToken) : float :=
  fold_left PrimFloat.add (soldPercents t) 0%float.

Definition repeatCondition (repeat : bool) (currentPrice : float) (t : HoneyToken) : bool :=
  PrimFloat.leb 100 (totalSold t) && repeat
  && PrimFloat.leb currentPrice
       (match lastEntryPrice t with Some e => e | None => 0%float end).

Section Engine.

Context {World : Type}.

(** The three collaborators: each call may change the world and either
    resolves with a value or rejects ([None]). *)
Variable getPrice : string -> World -> option float * World.
Variable autoBuy : string -> float -> string -> World -> option string * World.
Variable autoSell : string -> float -> string -> World -> option string * World.

(** One iteration of the [for (let i = ...)] loop. *)
Definition stageStep (walletSecret : string) (currentPrice : float) (i : nat)
    (t : HoneyToken) (w : World) : HoneyToken * World :=
  if stageFires currentPrice i t then
    match autoSell (address t) (sellAmount i t) walletSecret w with
    | (Some txId, w') => (afterSell currentPrice i txId t, w')
    | (None, w') => (setStatus error t, w')
    end
  else (t, w).

(** The stage loop from index [i]; [n] is the number of iterations left,
    [token.profitPercents.length - i]. *)
Fixpoint profitStages (walletSecret : string) (currentPrice : float) (n i : nat)
    (t : HoneyToken) (w : World) : HoneyToken * World :=
  match n with
  | O => (t, w)
  | S n' =>
      let '(t', w') := stageStep walletSecret currentPrice i t w in
      profitStages walletSecret currentPrice n' (S i) t' w'
  end.

Definition startStage (t : HoneyToken) : nat :=
  match currentStage t with Some n => n | None => 0%nat end.

(** The body of [for (const token of settings.tokens)]. *)
Definition evalToken (walletSecret : string) (repeat : bool) (t : HoneyToken)
    (w : World) : HoneyToken * World :=
  if missingData t then (setStatus error t, w)
  else if JS.truthyOptBool (finished t) then (setStatus sold t, w)
  else
    match getPrice (address t) w with
    | (None, w1) => (setStatus error t, w1)
    | (Some currentPrice, w1) =>
        if negb (JS.truthyOptNum (lastEntryPrice t)) then
          match autoBuy (address t) (buyAmount t) walletSecret w1 with
          | (Some txId, w2) => (afterBuy currentPrice txId t, w2)
          | (None, w2) => (setStatus error t, w2)
          end
        else
          let '(t1, w2) :=
            profitStages walletSecret currentPrice
              (length (profitPercents t) - startStage t) (startStage t) t w1 in
          if repeatCondition repeat currentPrice t1 then (rearm t1, w2) else (t1, w2)
    end.

Fixpoint evalTokens (walletSecret : string) (repeat : bool) (l : list HoneyToken)
    (w : World) : list HoneyToken * World :=
  match l with
  | [] => ([], w)
  | t :: rest =>
      let '(t', w1) := evalToken walletSecret repeat t w in
      let '(rest', w2) := evalTokens walletSecret repeat rest w1 in
      (t' :: rest', w2)
  end.

Definition executeHoneyStrategy (userId : string) (users : Users) (w : World)
    : Outcome * Users * World :=
  match users !! userId with
  | None => (Thrown walletMessage, users, w)
  | Some user =>
      match secret user with
      | None => (Thrown walletMessage, users, w)
      | Some walletSecret =>
          if negb (JS.truthyStr walletSecret) then (Thrown walletMessage, users, w)
          else
            let settings := getHoneySettings userId users in
            let '(tokens', w') :=
              evalTokens walletSecret (repeatOnEntry settings) (tokens settings) w in
            (Returned,
             setHoneySettings userId (mkSettings tokens' (repeatOnEntry settings)) users,
             w')
      end
  end.

End Engine.

(** The user record is absent or carries no wallet secret (none at all, or
    the empty string). *)
Definition noWallet (userId : string) (users : Users) : Prop :=
  match users !! userId with
  | None => True
  | Some u => secret u = None \/ secret u = Some ""
  end.

End UserStrategy.

(** ** telegramBot.ts: the sent-token ledger *)

Module TelegramBot.

(** One element of a user's [sent_tokens] file. *)
Record DedupRecord := mkRecord {
  hash : string;
  ts : Z
}.

(** What [fs.readFileSync] and [JSON.parse] find in an existing file: text
    that does not parse, a JSON value that is not an array, or an array of
    records. A user without a file has no entry in the map. *)
Inductive FileContent :=
| Unparsable
| NotArray
| Records (arr : list DedupRecord).

Abbreviation Files := (gmap string FileContent).

Definition dayMs : Z := 24 * 60 * 60 * 1000.

(** [obj.ts || 0] *)
Definition tsOrZero (r : DedupRecord) : Z := if ts r =? 0 then 0 else ts r.

(** The filter predicate
    [obj && obj.hash && (now - (obj.ts || 0) < 24 * 60 * 60 * 1000)]. *)
Definition keep (now : Z) (r : DedupRecord) : bool :=
  JS.truthyStr (hash r) && (now - tsOrZero r <? dayMs).

(** The [while (retry < 3)] loop around [fs.writeFileSync]: [writeOk k]
    tells whether the attempt made with [retry = k] succeeds; [n] is the
    number of attempts left. *)
Fixpoint writeRetry (writeOk : nat -> bool) (n retry : nat) (userId : string)
    (data : list DedupRecord) (files : Files) : Files :=
  match n with
  | O => files
  | S n' =>
      if writeOk retry then <[userId := Records data]> files
      else writeRetry writeOk n' (S retry) userId data files
  end.

Definition writeFile (writeOk : nat -> bool) (userId : string)
    (data : list DedupRecord) (files : Files) : Files :=
  writeRetry writeOk 3 0 userId data files.

(** The lock file only serialises concurrent callers; a single caller sees
    the functions below. *)
Definition readSentHashes (writeOk : nat -> bool) (userId : string) (now : Z)
    (files : Files) : gset string * Files :=
  match files !! userId with
  | None => (∅, files)
  | Some Unparsable => (∅, files)
  | Some NotArray => (∅, files)
  | Some (Records arr) =>
      let valid := List.filter (keep now) arr in
      let hashes := hash <$> valid in
      let files' :=
        if (length valid =? length arr)%nat then files
        else writeFile writeOk userId valid files in
      (list_to_set hashes, files')
  end.

(** The two capacity rules applied after [arr.push]. *)
Definition dropOldest (arr : list DedupRecord) : list DedupRecord :=
  if 3000 <=? Z.of_nat (length arr) then drop 10 arr else arr.

Definition keepLast (arr : list DedupRecord) : list DedupRecord :=
  if 6000 <? Z.of_nat (length arr)
  then drop (Z.to_nat (Z.of_nat (length arr) - 6000)) arr
  else arr.

Definition hasHash (h : string) (arr : list DedupRecord) : bool :=
  existsb (fun r => String.eqb (hash r) h) arr.

(** The array [arr] after the file was read: empty when there is no file or
    the parsed value is not an array. *)
Definition loaded (content : option FileContent) : list DedupRecord :=
  match content with
  | Some (Records a) => a
  | _ => []
  end.

Definition appendSentHash (writeOk : nat -> bool) (userId h : string) (now : Z)
    (files : Files) : Files :=
  match files !! userId with
  | Some Unparsable => files
  | content =>
      let arr := loaded content in
      let arr1 := List.filter (keep now) arr in
      if hasHash h arr1 then files
      else
        let arr2 := arr1 ++ [mkRecord h now] in
        writeFile writeOk userId (keepLast (dropOldest arr2)) files
  end.

Section Digest.

(** [crypto.createHash('sha256').update(s).digest('hex')] *)
Variable sha256hex : JS.JSString -> string.

(** [toLowerCase] outside the repertoire of [JS.toLowerCase]. *)
Variable unicodeLower : JS.JSString -> JS.JSString.


End Digest.

(** Two code units that are the same letter in either case. *)
Definition caseVariant (c d : N) : Prop :=
  c = d
  \/ (JS.isUpperCase c = true /\ d = JS.lowerOf c)
  \/ (JS.isUpperCase d = true /\ c = JS.lowerOf d).

(** Strings that differ in letter case only. *)
Inductive sameUpToCase : JS.JSString -> JS.JSString -> Prop :=
| sameEmpty : sameUpToCase [] []
| sameChar c d s s' :
    caseVariant c d -> sameUpToCase s s' -> sameUpToCase (c :: s) (d :: s').

Definition allWhiteSpace (s : JS.JSString) : bool := forallb JS.isWhiteSpace s.

(** Strings that differ only in surrounding white space or letter case. *)
Inductive sameAddress : JS.JSString -> JS.JSString -> Prop :=
| samePadded l1 r1 l2 r2 s1 s2 :
    allWhiteSpace l1 = true -> allWhiteSpace r1 = true ->
    allWhiteSpace l2 = true -> allWhiteSpace r2 = true ->
    sameUpToCase s1 s2 ->
    sameAddress (l1 ++ s1 ++ r1) (l2 ++ s2 ++ r2).

(** A string of code units below 256. *)
Definition latin1 (s : JS.JSString) : Prop := Forall (fun c => (c < 256)%N) s.

(** The same, between the white space, for strings of code units below
    256. *)
Inductive sameLatin1Address : JS.JSString -> JS.JSString -> Prop :=
| sameLatin1Padded l1 r1 l2 r2 s1 s2 :
    allWhiteSpace l1 = true -> allWhiteSpace r1 = true ->
    allWhiteSpace l2 = true -> allWhiteSpace r2 = true ->
    latin1 s1 -> latin1 s2 ->
    sameUpToCase s1 s2 ->
    sameLatin1Address (l1 ++ s1 ++ r1) (l2 ++ s2 ++ r2).

End TelegramBot.

(** ** Concrete collaborators and inputs

    A world that logs every collaborator call, with prices fixed per pass
    and sell outcomes read from a plan; the inputs used by the worked
    examples below. *)

Module Scenario.
Import UserStrategy.

Inductive Call :=
| PriceCall (addr : string)
| BuyCall (addr : string) (amount : float) (walletSecret : string)
| SellCall (addr : string) (amount : float) (walletSecret : string).

(** [sellPlan] lists the outcomes of the coming [autoSell] calls ([false]
    is a rejection); once it is used up every sale resolves. *)
Record World := mkWorld {
  calls : list Call;
  sellPlan : list bool
}.

Definition logged (c : Call) (w : World) : World :=
  mkWorld (calls w ++ [c]) (sellPlan w).

Definition priceIs (p : float) (addr : string) (w : World) : option float * World :=
  (Some p, logged (PriceCall addr) w).

Definition buyResolves (addr : string) (amount : float) (walletSecret : string)
    (w : World) : option string * World :=
  (Some "buy-tx", logged (BuyCall addr amount walletSecret) w).

Definition sellPlanned (addr : string) (amount : float) (walletSecret : string)
    (w : World) : option string * World :=
  let c := SellCall addr amount walletSecret in
  match sellPlan w with
  | false :: rest => (None, mkWorld (calls w ++ [c]) rest)
  | true :: rest => (Some "sell-tx", mkWorld (calls w ++ [c]) rest)
  | [] => (Some "sell-tx", mkWorld (calls w ++ [c]) [])
  end.

Definition quiet : World := mkWorld [] [].

(** One pass for user alice at a given price. *)
Definition pass (p : float) (users : Users) (w : World) : Outcome * Users * World :=
  executeHoneyStrategy (priceIs p) buyResolves sellPlanned "alice" users w.

Definition callsAfter (r : Outcome * Users * World) : list Call := calls r.2.

Definition tokensOf (users : Users) : list HoneyToken :=
  tokens (getHoneySettings "alice" users).

(** The token of the stage example: targets +10% and +25%, half of the
    position sold at each. *)
Definition fresh : HoneyToken :=
  mkToken "MINT" 1%float [10%float; 25%float] [50%float; 50%float]
    None None None None None None.

Definition entered : HoneyToken :=
  mkToken "MINT" 1%float [10%float; 25%float] [50%float; 50%float]
    (Some 100%float) None None (Some active) (Some 0%nat) (Some "buy-tx").

Definition halfSold (p : float) : HoneyToken :=
  mkToken "MINT" 1%float [10%float; 25%float] [50%float; 50%float]
    (Some 100%float) (Some p) None (Some active) (Some 1%nat) (Some "sell-tx").

Definition allSold (p : float) : HoneyToken :=
  mkToken "MINT" 1%float [10%float; 25%float] [50%float; 50%float]
    (Some 100%float) (Some p) (Some true) (Some sold) (Some 2%nat) (Some "sell-tx").

Definition alice (l : list HoneyToken) : User :=
  mkUser (Some "s3cr3t") (Some (mkStored (Some l) (Some true))) ∅.

Definition holding (l : list HoneyToken) : Users := {[ "alice" := alice l ]}.

(** Ten tracked tokens, the first of them at address [A0]. *)
Definition tokenAt (a : string) : HoneyToken :=
  mkToken a 1%float [10%float] [100%float] None None None None None None.

Definition tenTokens : list HoneyToken :=
  map tokenAt ["A0"; "A1"; "A2"; "A3"; "A4"; "A5"; "A6"; "A7"; "A8"; "A9"].


(** Ledger inputs. *)
Definition noon : Z := 1700000000000.

Definition ledgerOf (l : list TelegramBot.DedupRecord) : TelegramBot.Files :=
  {[ "alice" := TelegramBot.Records l ]}.

Definition always (k : nat) : bool := true.

(** One record just over a day old and one just under. *)
Definition aroundOneDay : list TelegramBot.DedupRecord :=
  [TelegramBot.mkRecord "d1" (noon - 86400001);
   TelegramBot.mkRecord "d2" (noon - 86399999)].

(** A record one millisecond short of a day old, with an empty digest. *)
Definition blankRecord : TelegramBot.DedupRecord :=
  TelegramBot.mkRecord "" (noon - 86399999).

(** 2999 fresh records with distinct digests [0], [1], ... *)
Definition nearlyFull : list TelegramBot.DedupRecord :=
  (fun n => TelegramBot.mkRecord (pretty n) noon) <$> seq 0 2999.

End Scenario.

(** ** telegramBot.ts: the lock file

    The marker of [file] is the file [file + '.lock']. Its content is what
    [Number(fs.readFileSync(lockPath, 'utf8'))] yields: the integer written
    by [String(Date.now())], or NaN for any other text. The file operations
    on the marker are taken to succeed. *)

Module FileLock.

Inductive Marker :=
| Stamp (ts : Z)
| Garbled.

Abbreviation Locks := (gmap string Marker).

Definition lockPath (file : string) : string := file +:+ ".lock".

(** [Date.now() - ts > 2000]; a comparison with NaN is false. *)
Definition abandoned (now : Z) (m : Marker) : bool :=
  match m with
  | Stamp ts => 2000 <? now - ts
  | Garbled => false
  end.

(** One run of [tryLock], with [now] the reading of [Date.now()]: the flag
    tells whether the promise is resolved (the lock is taken); otherwise the
    next run is scheduled. *)
Definition tryLock (now : Z) (file : string) (locks : Locks) : bool * Locks :=
  match locks !! lockPath file with
  | None => (true, <[lockPath file := Stamp now]> locks)
  | Some m =>
      (false, if abandoned now m then delete (lockPath file) locks else locks)
  end.

(** [lockFile]: [tryLock] rescheduled until it takes the lock. [clock k] is
    the reading of [Date.now()] in run [k]; nobody else touches the marker
    between two runs. [None] means that the lock was not taken within
    [fuel] runs. *)
Fixpoint lockFile (clock : nat -> Z) (fuel run : nat) (file : string)
    (locks : Locks) : option Locks :=
  match fuel with
  | O => None
  | S fuel' =>
      match tryLock (clock run) file locks with
      | (true, locks') => Some locks'
      | (false, locks') => lockFile clock fuel' (S run) file locks'
      end
  end.

Definition unlockFile (file : string) (locks : Locks) : Locks :=
  match locks !! lockPath file with
  | Some _ => delete (lockPath file) locks
  | None => locks
  end.

End FileLock.

(** ** Notions used to state the laws of the store, the pass and the ledger *)

Module Laws.
Import UserStrategy.

(** The fields a user configures: the pass never writes them. *)
Definition sameConfig (t t' : HoneyToken) : Prop :=
  address t' = address t
  /\ buyAmount t' = buyAmount t
  /\ profitPercents t' = profitPercents t
  /\ soldPercents t' = soldPercents t.



(** At most ten tokens, no two at the same address. *)
Definition wellFormed (settings : HoneySettings) : Prop :=
  (length (tokens settings) <= 10)%nat
  /\ NoDup (address <$> tokens settings).

(** A finished token is shown as sold, and the next stage is within the
    stage array. *)
Definition consistent (t : HoneyToken) : Prop :=
  (finished t = Some true -> status t = Some sold)
  /\ (startStage t <= length (profitPercents t))%nat.

Section Passes.

Context {World : Type}.
Variable getPrice : string -> World -> option float * World.
Variable autoBuy : string -> float -> string -> World -> option string * World.
Variable autoSell : string -> float -> string -> World -> option string * World.

(** [k] passes in a row over one token. *)
Fixpoint evalTokenTimes (k : nat) (walletSecret : string) (repeat : bool)
    (t : HoneyToken) (w : World) : HoneyToken * World :=
  match k with
  | O => (t, w)
  | S k' =>
      let '(t', w') := evalToken getPrice autoBuy autoSell walletSecret repeat t w in
      evalTokenTimes k' walletSecret repeat t' w'
  end.

End Passes.

Section Stages.

Context {World : Type}.
Variable autoSell : string -> float -> string -> World -> option string * World.

(** The stage loop as the specification words it: the [n] stages from
    index [i] on, each evaluated once, in order, on the token and the world
    that the stage before it left. *)
Definition stagesInOrder (walletSecret : string) (currentPrice : float)
    (n i : nat) (t : HoneyToken) (w : World) : HoneyToken * World :=
  fold_left
    (fun tw j => stageStep autoSell walletSecret currentPrice j tw.1 tw.2)
    (seq i n) (t, w).

End Stages.

(** The records of a user's ledger file, as [appendSentHash] loads them. *)
Definition stored (userId : string) (files : TelegramBot.Files)
    : list TelegramBot.DedupRecord :=
  TelegramBot.loaded (files !! userId).

(** The three write attempts all fail. *)
Definition neverWrites (writeOk : nat -> bool) : Prop :=
  writeOk 0%nat = false /\ writeOk 1%nat = false /\ writeOk 2%nat = false.

End Laws.

(** More inputs for the worked examples. *)

Module Scenario2.
Import UserStrategy.

(** A token bought at -1 (a price feed gone wrong), looked at when the
    price reads 0. *)
Definition belowZero : HoneyToken :=
  mkToken "MINT" 1%float [10%float; 25%float] [50%float; 50%float]
    (Some (-1)%float) None None (Some active) (Some 0%nat) (Some "buy-tx").

(** A finished token whose address was blanked afterwards. *)
Definition blankFinished : HoneyToken :=
  mkToken "" 1%float [10%float] [100%float]
    (Some 100%float) (Some 110%float) (Some true) (Some sold) (Some 1%nat) None.



(** A token with three stages, at +10%, +50% and +20%, entered at 100, and
    the same token after the third stage was sold at 126 with the first
    two unsold. *)
Definition threeStages : HoneyToken :=
  mkToken "MINT" 1%float [10%float; 50%float; 20%float]
    [50%float; 25%float; 25%float]
    (Some 100%float) None None (Some active) (Some 0%nat) (Some "buy-tx").

Definition thirdStageSold : HoneyToken :=
  mkToken "MINT" 1%float [10%float; 50%float; 20%float]
    [50%float; 25%float; 25%float]
    (Some 100%float) (Some 126%float) (Some true) (Some sold) (Some 3%nat)
    (Some "sell-tx").

Definition never (k : nat) : bool := false.

Definition thirdTime (k : nat) : bool := (k =? 2)%nat.

(** A clock that advances 20 ms per run, from [t0]. *)
Definition ticking (t0 : Z) (run : nat) : Z := t0 + 20 * Z.of_nat run.

End Scenario2.

(** ** Facts about the JavaScript string primitives *)

Module JSFacts.
Import JS.

















End JSFacts.

(** ** The sent-token ledger *)

Module TelegramBotFacts.
Import JS JSFacts TelegramBot.

(** *** Digest of an address *)







Lemma sameLatin1Address_sameAddress s1 s2 :
  sameLatin1Address s1 s2 -> sameAddress s1 s2.
Proof. intros [l1 r1 l2 r2 c1 c2 ? ? ? ? _ _ ?]. by constructor. Qed.

Section DigestFacts.

Variable sha256hex : JSString -> string.
Variable unicodeLower : JSString -> JSString.


End DigestFacts.




(** *** Reading the ledger *)

Lemma keep_spec now r :
  keep now r = true <-> hash r <> "" /\ now - ts r < 86400000.
Proof.
  unfold keep, tsOrZero. rewrite andb_true_iff, Z.ltb_lt.
  change dayMs with 86400000.
  assert (truthyStr (hash r) = true <-> hash r <> "") as ->
    by (destruct (hash r); simpl; split; congruence).
  destruct (Z.eqb_spec (ts r) 0) as [->|_]; reflexivity.
Qed.

Lemma hasHash_spec h arr :
  hasHash h arr = true <-> exists r, r ∈ arr /\ hash r = h.
Proof.
  unfold hasHash. rewrite existsb_exists. split.
  - intros (r & Hin & Heq). exists r. rewrite list_elem_of_In.
    by apply String.eqb_eq in Heq.
  - intros (r & Hin & Heq). exists r. rewrite <- list_elem_of_In.
    by apply String.eqb_eq in Heq.
Qed.

Lemma elem_of_kept now r arr :
  r ∈ List.filter (keep now) arr <-> r ∈ arr /\ keep now r = true.
Proof. by rewrite !list_elem_of_In, filter_In. Qed.

Lemma readSentHashes_digest writeOk userId now files h :
  h ∈ (readSentHashes writeOk userId now files).1 <->
  exists arr r, files !! userId = Some (Records arr)
                /\ r ∈ arr /\ keep now r = true /\ hash r = h.
Proof.
  unfold readSentHashes.
  destruct (files !! userId) as [[| |arr]|] eqn:E; simpl;
    try (split; [by rewrite elem_of_empty | by intros (? & ? & ? & _)]).
  rewrite elem_of_list_to_set, list_elem_of_fmap. split.
  - intros (r & -> & [Hin Hk]%elem_of_kept). by exists arr, r.
  - intros (arr' & r & [= <-] & Hin & Hk & <-). exists r.
    split; [done|]. by apply elem_of_kept.
Qed.

(** C5 (amended). [readSentHashes] keeps exactly the records that carry a
    non-empty digest and are younger than 86,400,000 ms, and returns the
    digests of the records it keeps. A record with [ts = now - 86_400_001]
    is not kept; the digest of a record with a non-empty digest and
    [ts = now - 86_399_999] is in the result. *)
Theorem readSentHashes_keeps_fresh (writeOk : nat -> bool) (userId : string)
    (now : Z) (files : Files) (arr : list DedupRecord) :
  files !! userId = Some (Records arr) ->
  (forall r, r ∈ List.filter (keep now) arr <->
             r ∈ arr /\ hash r <> "" /\ now - ts r < 86400000)
  /\ (readSentHashes writeOk userId now files).1
     = list_to_set (hash <$> List.filter (keep now) arr)
  /\ (forall r, ts r = now - 86400001 -> r ∉ List.filter (keep now) arr)
  /\ (forall r, r ∈ arr -> hash r <> "" -> ts r = now - 86399999 ->
                hash r ∈ (readSentHashes writeOk userId now files).1).
Proof.
  intros Hfile. split; [|split; [|split]].
  - intros r. rewrite elem_of_kept, keep_spec. tauto.
  - unfold readSentHashes. by rewrite Hfile.
  - intros r Hts [_ Hk]%elem_of_kept. apply keep_spec in Hk. lia.
  - intros r Hin Hh Hts. apply readSentHashes_digest. exists arr, r.
    repeat split; try done. apply keep_spec. split; [done|lia].
Qed.

Lemma readSentHashes_keeps_fresh_witness :
  Scenario.ledgerOf Scenario.aroundOneDay !! "alice"
  = Some (Records Scenario.aroundOneDay)
  /\ (readSentHashes Scenario.always "alice" Scenario.noon
        (Scenario.ledgerOf Scenario.aroundOneDay)).1 = {[ "d2" ]}
  /\ "d2" ∈ (readSentHashes Scenario.always "alice" Scenario.noon
               (Scenario.ledgerOf Scenario.aroundOneDay)).1.
Proof.
  split; [reflexivity|]. split; [vm_compute; reflexivity|].
  destruct (readSentHashes_keeps_fresh Scenario.always "alice" Scenario.noon
              (Scenario.ledgerOf Scenario.aroundOneDay) Scenario.aroundOneDay
              eq_refl) as (_ & _ & _ & Hfresh).
  apply (Hfresh (mkRecord "d2" (Scenario.noon - 86399999))).
  - apply list_elem_of_In. right. left. reflexivity.
  - discriminate.
  - reflexivity.
Defined.

(** C5, the claim as stated fails: a record that is less than a day old
    ([now - ts = 86_399_999]) is discarded all the same when its digest is
    empty, and the pruned file is written back. *)
Lemma readSentHashes_drops_blank_digest :
  Scenario.noon - ts Scenario.blankRecord = 86399999
  /\ (readSentHashes Scenario.always "alice" Scenario.noon
        (Scenario.ledgerOf [Scenario.blankRecord])).1 = ∅
  /\ (readSentHashes Scenario.always "alice" Scenario.noon
        (Scenario.ledgerOf [Scenario.blankRecord])).2 !! "alice"
     = Some (Records []).
Proof. repeat split; vm_compute; reflexivity. Qed.

(** *** Appending to the ledger *)

Lemma writeFile_succeeds writeOk userId data files :
  writeOk 0%nat || writeOk 1%nat || writeOk 2%nat = true ->
  writeFile writeOk userId data files = <[userId := Records data]> files.
Proof.
  unfold writeFile. simpl.
  destruct (writeOk 0%nat), (writeOk 1%nat), (writeOk 2%nat); done.
Qed.

Lemma appendSentHash_fresh writeOk userId h now files :
  files !! userId <> Some Unparsable ->
  hasHash h (List.filter (keep now) (loaded (files !! userId))) = false ->
  appendSentHash writeOk userId h now files
  = writeFile writeOk userId
      (keepLast (dropOldest
         (List.filter (keep now) (loaded (files !! userId)) ++ [mkRecord h now])))
      files.
Proof.
  intros Hp Hfresh. unfold appendSentHash.
  destruct (files !! userId) as [[| |arr]|] eqn:E; try done;
    simpl in *; by rewrite ?Hfresh.
Qed.

Lemma capacity_rules (arr : list DedupRecord) :
  let n := Z.of_nat (length arr) in
  (n < 3000 -> keepLast (dropOldest arr) = arr)
  /\ (3000 <= n -> n - 10 <= 6000 -> keepLast (dropOldest arr) = drop 10 arr)
  /\ (6000 < n - 10 ->
      keepLast (dropOldest arr) = drop (Z.to_nat (n - 6000)) arr
      /\ Z.of_nat (length (keepLast (dropOldest arr))) = 6000).
Proof.
  intros n. unfold keepLast, dropOldest. subst n.
  split; [|split].
  - intros Hn.
    destruct (Z.leb_spec 3000 (Z.of_nat (length arr))); [lia|].
    destruct (Z.ltb_spec 6000 (Z.of_nat (length arr))); [lia|done].
  - intros Hlo Hhi.
    destruct (Z.leb_spec 3000 (Z.of_nat (length arr))); [|lia].
    destruct (Z.ltb_spec 6000 (Z.of_nat (length (drop 10 arr)))) as [Hd|_];
      [rewrite length_drop in Hd; lia | done].
  - intros Hn.
    destruct (Z.leb_spec 3000 (Z.of_nat (length arr))); [|lia].
    destruct (Z.ltb_spec 6000 (Z.of_nat (length (drop 10 arr)))) as [_|Hd];
      [|rewrite length_drop in Hd; lia].
    rewrite drop_drop, !length_drop.
    split; [f_equal; lia | lia].
Qed.

(** C6. An append of a digest that is not yet in the ledger pushes the
    record and then applies the capacity rules to the array it persists:
    once the count has reached 3000 the first ten records (the oldest by
    position, whatever their age) are dropped, and if more than 6000 remain
    only the last 6000 are kept. An append that brings the count to exactly
    3000 leaves 2990 records. *)
Theorem appendSentHash_capacity (writeOk : nat -> bool) (userId h : string)
    (now : Z) (files : Files) :
  files !! userId <> Some Unparsable ->
  hasHash h (List.filter (keep now) (loaded (files !! userId))) = false ->
  writeOk 0%nat || writeOk 1%nat || writeOk 2%nat = true ->
  let arr := List.filter (keep now) (loaded (files !! userId)) ++ [mkRecord h now] in
  let n := Z.of_nat (length arr) in
  exists written,
    appendSentHash writeOk userId h now files = <[userId := Records written]> files
    /\ (n < 3000 -> written = arr)
    /\ (3000 <= n -> n - 10 <= 6000 -> written = drop 10 arr)
    /\ (6000 < n - 10 ->
        written = drop (Z.to_nat (n - 6000)) arr
        /\ Z.of_nat (length written) = 6000)
    /\ (n = 3000 -> written = drop 10 arr /\ Z.of_nat (length written) = 2990).
Proof.
  intros Hp Hfresh Hok arr n.
  exists (keepLast (dropOldest arr)).
  destruct (capacity_rules arr) as (Hsmall & Htrim & Hcap).
  split; [|split; [|split; [|split]]]; try done.
  - rewrite appendSentHash_fresh by done. by apply writeFile_succeeds.
  - intros Hn. fold n in Htrim. rewrite Htrim by lia.
    split; [done|]. rewrite length_drop. lia.
Qed.

Lemma appendSentHash_capacity_witness :
  exists written,
    appendSentHash Scenario.always "alice" "fresh-digest" Scenario.noon
      (Scenario.ledgerOf Scenario.nearlyFull) !! "alice"
    = Some (Records written)
    /\ written
       = drop 10 (Scenario.nearlyFull ++ [mkRecord "fresh-digest" Scenario.noon])
    /\ Z.of_nat (length written) = 2990.
Proof.
  assert (Scenario.ledgerOf Scenario.nearlyFull !! "alice" <> Some Unparsable)
    as Hp by discriminate.
  assert (hasHash "fresh-digest"
            (List.filter (keep Scenario.noon)
               (loaded (Scenario.ledgerOf Scenario.nearlyFull !! "alice")))
          = false) as Hfresh by (vm_compute; reflexivity).
  destruct (appendSentHash_capacity Scenario.always "alice" "fresh-digest"
              Scenario.noon (Scenario.ledgerOf Scenario.nearlyFull)
              Hp Hfresh eq_refl)
    as (written & Hfile & _ & _ & _ & Hexact).
  assert (Z.of_nat
            (length
               (List.filter (keep Scenario.noon)
                  (loaded (Scenario.ledgerOf Scenario.nearlyFull !! "alice"))
                ++ [mkRecord "fresh-digest" Scenario.noon])) = 3000)
    as Hcount by (vm_compute; reflexivity).
  destruct (Hexact Hcount) as [Hwritten Hlen].
  exists written. split; [|split].
  - rewrite Hfile. apply lookup_insert_eq.
  - rewrite Hwritten. vm_compute. reflexivity.
  - exact Hlen.
Defined.

Lemma pushed_record_survives (l : list DedupRecord) (x : DedupRecord) :
  x ∈ keepLast (dropOldest (l ++ [x])).
Proof.
  assert (forall l', x ∈ keepLast (l' ++ [x])) as Hlast.
  { intros l'. unfold keepLast.
    destruct (Z.ltb_spec 6000 (Z.of_nat (length (l' ++ [x])))) as [Hn|_];
      [|set_solver].
    rewrite length_app in *. simpl in *.
    rewrite drop_app_le by lia. set_solver. }
  unfold dropOldest.
  destruct (Z.leb_spec 3000 (Z.of_nat (length (l ++ [x])))) as [Hn|_];
    [|apply Hlast].
  rewrite length_app in Hn. simpl in Hn.
  rewrite drop_app_le by lia. apply Hlast.
Qed.

(** A digest appended and persisted is found by a second append made
    within the next day, which then writes nothing. *)
Lemma appendSentHash_twice writeOk writeOk' userId h now later files :
  files !! userId <> Some Unparsable ->
  h <> "" ->
  writeOk 0%nat || writeOk 1%nat || writeOk 2%nat = true ->
  hasHash h (List.filter (keep now) (loaded (files !! userId))) = false ->
  later - now < 86400000 ->
  appendSentHash writeOk' userId h later (appendSentHash writeOk userId h now files)
  = appendSentHash writeOk userId h now files.
Proof.
  intros Hp Hh Hok Hfresh Hlater.
  rewrite (appendSentHash_fresh writeOk) by done.
  rewrite writeFile_succeeds by done.
  set (arr := keepLast (dropOldest _)).
  unfold appendSentHash at 1. rewrite lookup_insert_eq. simpl.
  assert (hasHash h (List.filter (keep later) arr) = true) as ->; [|done].
  apply hasHash_spec. exists (mkRecord h now). split; [|done].
  apply elem_of_kept. split; [apply pushed_record_survives|].
  apply keep_spec. simpl. split; [done|lia].
Qed.



End TelegramBotFacts.

(** ** The strategy store and the trading pass *)

Module UserStrategyFacts.
Import UserStrategy.

(** *** Store *)

Lemma hasAddress_spec a l :
  hasAddress a l = true <-> exists t, t ∈ l /\ address t = a.
Proof.
  unfold hasAddress. rewrite existsb_exists. split.
  - intros (t & Hin & Heq). exists t. rewrite list_elem_of_In.
    by apply String.eqb_eq in Heq.
  - intros (t & Hin & Heq). exists t. rewrite <- list_elem_of_In.
    by apply String.eqb_eq in Heq.
Qed.

Lemma getHoneySettings_set userId settings users :
  getHoneySettings userId (setHoneySettings userId settings users) = settings.
Proof.
  unfold getHoneySettings, setHoneySettings. rewrite lookup_insert_eq. simpl.
  by destruct settings.
Qed.

(** C9 (amended). [addHoneyToken] throws the capacity error whenever the
    user already has ten tokens or more; with fewer than ten it throws the
    duplicate error whenever a stored token has the same address; a throw
    leaves [users] as it was; otherwise the token is appended to the stored
    list. *)
Theorem addHoneyToken_rules (userId : string) (token : HoneyToken) (users : Users) :
  let settings := getHoneySettings userId users in
  ((10 <= length (tokens settings))%nat ->
   addHoneyToken userId token users = (Thrown capacityMessage, users))
  /\ ((length (tokens settings) < 10)%nat ->
      (exists t, t ∈ tokens settings /\ address t = address token) ->
      addHoneyToken userId token users = (Thrown duplicateMessage, users))
  /\ ((length (tokens settings) < 10)%nat ->
      (forall t, t ∈ tokens settings -> address t <> address token) ->
      let added := mkSettings (tokens settings ++ [token]) (repeatOnEntry settings) in
      addHoneyToken userId token users
      = (Returned, setHoneySettings userId added users)
      /\ getHoneySettings userId (setHoneySettings userId added users) = added).
Proof.
  intros settings. unfold addHoneyToken. fold settings.
  split; [|split].
  - intros Hlen. destruct (Nat.leb_spec 10 (length (tokens settings))); [done|lia].
  - intros Hlen Hdup.
    destruct (Nat.leb_spec 10 (length (tokens settings))); [lia|].
    apply hasAddress_spec in Hdup. by rewrite Hdup.
  - intros Hlen Hnew.
    destruct (Nat.leb_spec 10 (length (tokens settings))); [lia|].
    destruct (hasAddress (address token) (tokens settings)) eqn:Hdup.
    + apply hasAddress_spec in Hdup as (t & Hin & Heq). by destruct (Hnew t).
    + split; [done|]. apply getHoneySettings_set.
Qed.

Lemma addHoneyToken_rules_witness :
  addHoneyToken "alice" (Scenario.tokenAt "A1") (Scenario.holding [Scenario.tokenAt "A0"])
  = (Returned, Scenario.holding [Scenario.tokenAt "A0"; Scenario.tokenAt "A1"])
  /\ addHoneyToken "alice" (Scenario.tokenAt "A0") (Scenario.holding [Scenario.tokenAt "A0"])
     = (Thrown duplicateMessage, Scenario.holding [Scenario.tokenAt "A0"])
  /\ addHoneyToken "alice" (Scenario.tokenAt "B") (Scenario.holding Scenario.tenTokens)
     = (Thrown capacityMessage, Scenario.holding Scenario.tenTokens).
Proof.
  split; [|split].
  - destruct (addHoneyToken_rules "alice" (Scenario.tokenAt "A1")
                (Scenario.holding [Scenario.tokenAt "A0"])) as (_ & _ & Hadd).
    assert (forall t, t ∈ [Scenario.tokenAt "A0"] ->
                      address t <> address (Scenario.tokenAt "A1")) as Hnew.
    { intros t Hin. apply list_elem_of_In in Hin as [<-|[]]. discriminate. }
    destruct (Hadd ltac:(vm_compute; lia) Hnew) as [-> _].
    vm_compute. reflexivity.
  - destruct (addHoneyToken_rules "alice" (Scenario.tokenAt "A0")
                (Scenario.holding [Scenario.tokenAt "A0"])) as (_ & Hdup & _).
    apply Hdup; [vm_compute; lia|].
    exists (Scenario.tokenAt "A0"). split; [|reflexivity].
    apply list_elem_of_In. left. reflexivity.
  - destruct (addHoneyToken_rules "alice" (Scenario.tokenAt "B")
                (Scenario.holding Scenario.tenTokens)) as (Hfull & _).
    apply Hfull. vm_compute. lia.
Defined.

(** C9, the claim as stated fails: with ten tokens stored, one of them at
    the address being added, the call throws the capacity error, not the
    duplicate error. *)
Lemma addHoneyToken_full_and_duplicate :
  hasAddress "A0" (Scenario.tokensOf (Scenario.holding Scenario.tenTokens)) = true
  /\ addHoneyToken "alice" (Scenario.tokenAt "A0") (Scenario.holding Scenario.tenTokens)
     = (Thrown capacityMessage, Scenario.holding Scenario.tenTokens)
  /\ capacityMessage <> duplicateMessage.
Proof.
  split; [vm_compute; reflexivity|].
  split; [vm_compute; reflexivity | discriminate].
Qed.

(** *** The stage loop *)

Lemma stageFires_spec (currentPrice : float) (i : nat) (t : HoneyToken) :
  stageFires currentPrice i t = true <->
  PrimFloat.leb (target i t) currentPrice = true
  /\ (lastSellPrice t = None
      \/ exists l, lastSellPrice t = Some l
                   /\ (JS.truthyNum l = false \/ PrimFloat.ltb l currentPrice = true)).
Proof.
  unfold stageFires. rewrite andb_true_iff.
  destruct (lastSellPrice t) as [l|]; simpl.
  - rewrite orb_true_iff, negb_true_iff. split.
    + intros [Ht Hl]. split; [exact Ht|]. right. exists l. by split.
    + intros [Ht [Hn|(l' & Heq & Hl)]]; [discriminate Hn|].
      injection Heq as <-. by split.
  - split.
    + intros [Ht _]. split; [exact Ht | by left].
    + intros [Ht _]. by split.
Qed.

Lemma afterSell_fields (currentPrice : float) (i : nat) (txId : string) (t : HoneyToken) :
  let t' := afterSell currentPrice i txId t in
  lastSellPrice t' = Some currentPrice
  /\ currentStage t' = Some (S i)
  /\ lastTxId t' = Some txId
  /\ lastEntryPrice t' = lastEntryPrice t
  /\ ((length (profitPercents t) <= S i)%nat ->
      finished t' = Some true /\ status t' = Some sold)
  /\ ((S i < length (profitPercents t))%nat ->
      finished t' = finished t /\ status t' = status t).
Proof.
  unfold afterSell. simpl.
  destruct (Nat.leb_spec (length (profitPercents t)) (S i)); simpl;
    repeat split; try done; lia.
Qed.

Section StageFacts.

Context {World : Type}.
Variable getPrice : string -> World -> option float * World.
Variable autoBuy : string -> float -> string -> World -> option string * World.
Variable autoSell : string -> float -> string -> World -> option string * World.

Lemma profitStages_skip walletSecret currentPrice n i t (w : World) :
  stageFires currentPrice i t = false ->
  profitStages autoSell walletSecret currentPrice (S n) i t w
  = profitStages autoSell walletSecret currentPrice n (S i) t w.
Proof. intros H. simpl. unfold stageStep. by rewrite H. Qed.

Lemma profitStages_sold walletSecret currentPrice n i t (w w' : World) txId :
  stageFires currentPrice i t = true ->
  autoSell (address t) (sellAmount i t) walletSecret w = (Some txId, w') ->
  profitStages autoSell walletSecret currentPrice (S n) i t w
  = profitStages autoSell walletSecret currentPrice n (S i)
      (afterSell currentPrice i txId t) w'.
Proof. intros H Hs. simpl. unfold stageStep. by rewrite H, Hs. Qed.

Lemma profitStages_failed walletSecret currentPrice n i t (w w' : World) :
  stageFires currentPrice i t = true ->
  autoSell (address t) (sellAmount i t) walletSecret w = (None, w') ->
  profitStages autoSell walletSecret currentPrice (S n) i t w
  = profitStages autoSell walletSecret currentPrice n (S i) (setStatus error t) w'.
Proof. intros H Hs. simpl. unfold stageStep. by rewrite H, Hs. Qed.

(** A token that passes the gate, is not finished and has a truthy entry
    price runs the loop from [currentStage || 0] up to the last stage, and
    then meets the repeat-on-entry test. *)
Lemma evalToken_stages walletSecret repeat t (w w1 : World) currentPrice :
  missingData t = false ->
  JS.truthyOptBool (finished t) = false ->
  getPrice (address t) w = (Some currentPrice, w1) ->
  JS.truthyOptNum (lastEntryPrice t) = true ->
  evalToken getPrice autoBuy autoSell walletSecret repeat t w
  = let '(t1, w2) :=
      profitStages autoSell walletSecret currentPrice
        (length (profitPercents t) - startStage t) (startStage t) t w1 in
    if repeatCondition repeat currentPrice t1 then (rearm t1, w2) else (t1, w2).
Proof.
  intros Hgate Hfin Hprice Hentry. unfold evalToken.
  by rewrite Hgate, Hfin, Hprice, Hentry.
Qed.

Lemma evalToken_finished walletSecret repeat t (w : World) :
  missingData t = false ->
  finished t = Some true ->
  evalToken getPrice autoBuy autoSell walletSecret repeat t w = (setStatus sold t, w).
Proof. intros Hgate Hfin. unfold evalToken. by rewrite Hgate, Hfin. Qed.

End StageFacts.

Section OrderFacts.

Context {World : Type}.
Variable autoSell : string -> float -> string -> World -> option string * World.

Lemma stagesInOrder_step walletSecret p n i t (w : World) :
  Laws.stagesInOrder autoSell walletSecret p (S n) i t w
  = Laws.stagesInOrder autoSell walletSecret p n (S i)
      (stageStep autoSell walletSecret p i t w).1
      (stageStep autoSell walletSecret p i t w).2.
Proof.
  unfold Laws.stagesInOrder. simpl.
  by destruct (stageStep autoSell walletSecret p i t w).
Qed.

Lemma stagesInOrder_app walletSecret p n m i t (w : World) :
  Laws.stagesInOrder autoSell walletSecret p (n + m) i t w
  = Laws.stagesInOrder autoSell walletSecret p m (i + n)
      (Laws.stagesInOrder autoSell walletSecret p n i t w).1
      (Laws.stagesInOrder autoSell walletSecret p n i t w).2.
Proof.
  unfold Laws.stagesInOrder. rewrite seq_app, fold_left_app.
  by destruct (fold_left _ (seq i n) (t, w)).
Qed.

(** The [for] loop evaluates the stages in order, each exactly once. *)
Lemma profitStages_in_order walletSecret p n : forall i t (w : World),
  profitStages autoSell walletSecret p n i t w
  = Laws.stagesInOrder autoSell walletSecret p n i t w.
Proof.
  induction n as [|n IH]; intros i t w; [done|].
  rewrite stagesInOrder_step. cbn [profitStages].
  destruct (stageStep autoSell walletSecret p i t w) as [t1 w1]. apply IH.
Qed.

Lemma stageStep_quiet walletSecret p i t (w : World) :
  stageFires p i t = false ->
  stageStep autoSell walletSecret p i t w = (t, w).
Proof. intros H. unfold stageStep. by rewrite H. Qed.

Lemma stageStep_sold walletSecret p i t (w w' : World) txId :
  stageFires p i t = true ->
  autoSell (address t) (sellAmount i t) walletSecret w = (Some txId, w') ->
  stageStep autoSell walletSecret p i t w = (afterSell p i txId t, w').
Proof. intros H Hs. unfold stageStep. by rewrite H, Hs. Qed.

Lemma stageStep_rejected walletSecret p i t (w w' : World) :
  stageFires p i t = true ->
  autoSell (address t) (sellAmount i t) walletSecret w = (None, w') ->
  stageStep autoSell walletSecret p i t w = (setStatus error t, w').
Proof. intros H Hs. unfold stageStep. by rewrite H, Hs. Qed.

End OrderFacts.

(** C1. In a pass, a token with a truthy entry price has its stages
    evaluated from [currentStage || 0] to the last one, each once and in
    order. Stage [i] fires exactly when [currentPrice] is at least
    [entryPrice * (1 + profitPercents[i] / 100)], as the code computes it,
    and [lastSellPrice] is unset, zero or NaN, or below [currentPrice]. A
    stage that does not fire leaves the token and the world alone; a sale
    that resolves sets [lastSellPrice], [currentStage = i + 1] and
    [lastTxId], and marks the token finished and sold once [i + 1] reaches
    the number of stages; a rejected sale only sets the status.

    The worked example breaks at 110. For the token with stages [10, 25] /
    [50, 50] and amount 1, entered at 100, the target of stage 0 is
    100 * (1 + 10/100) = 110, and the example has stage 0 fire at 110; the
    code computes that target in double precision as 110.00000000000001,
    so the pass at 110 sells nothing. The steps around it go as the
    example says: nothing fires at 109; with stage 0 sold at 110, stage 1
    does not fire at 110 again and fires at 126, selling 0.5 and finishing
    the token. *)
Theorem stage_evaluation :
  (forall (World : Type)
          (getPrice : string -> World -> option float * World)
          (autoBuy autoSell :
             string -> float -> string -> World -> option string * World)
          (walletSecret : string) (repeat : bool) (t : HoneyToken)
          (w w1 : World) (currentPrice : float),
      missingData t = false ->
      JS.truthyOptBool (finished t) = false ->
      getPrice (address t) w = (Some currentPrice, w1) ->
      JS.truthyOptNum (lastEntryPrice t) = true ->
      evalToken getPrice autoBuy autoSell walletSecret repeat t w
      = let '(t1, w2) :=
          Laws.stagesInOrder autoSell walletSecret currentPrice
            (length (profitPercents t) - startStage t) (startStage t) t w1 in
        if repeatCondition repeat currentPrice t1
        then (rearm t1, w2) else (t1, w2))
  /\ (forall (World : Type)
             (autoSell : string -> float -> string -> World -> option string * World)
             (walletSecret : string) (currentPrice : float) (i : nat)
             (t : HoneyToken) (w : World),
         (stageFires currentPrice i t = true <->
          PrimFloat.leb (target i t) currentPrice = true
          /\ (lastSellPrice t = None
              \/ exists l, lastSellPrice t = Some l
                           /\ (JS.truthyNum l = false
                               \/ PrimFloat.ltb l currentPrice = true)))
         /\ (stageFires currentPrice i t = false ->
             stageStep autoSell walletSecret currentPrice i t w = (t, w))
         /\ (forall txId w',
               stageFires currentPrice i t = true ->
               autoSell (address t) (sellAmount i t) walletSecret w
               = (Some txId, w') ->
               let t' := afterSell currentPrice i txId t in
               stageStep autoSell walletSecret currentPrice i t w = (t', w')
               /\ lastSellPrice t' = Some currentPrice
               /\ currentStage t' = Some (S i)
               /\ lastTxId t' = Some txId
               /\ ((length (profitPercents t) <= S i)%nat ->
                   finished t' = Some true /\ status t' = Some sold)
               /\ ((S i < length (profitPercents t))%nat ->
                   finished t' = finished t /\ status t' = status t))
         /\ (forall w',
               stageFires currentPrice i t = true ->
               autoSell (address t) (sellAmount i t) walletSecret w = (None, w') ->
               stageStep autoSell walletSecret currentPrice i t w
               = (setStatus error t, w')))
  /\ Scenario.pass 100 (Scenario.holding [Scenario.fresh]) Scenario.quiet
     = (Returned, Scenario.holding [Scenario.entered],
        Scenario.mkWorld
          [Scenario.PriceCall "MINT"; Scenario.BuyCall "MINT" 1 "s3cr3t"] [])
  /\ Scenario.pass 109 (Scenario.holding [Scenario.entered]) Scenario.quiet
     = (Returned, Scenario.holding [Scenario.entered],
        Scenario.mkWorld [Scenario.PriceCall "MINT"] [])
  /\ target 0 Scenario.entered = 0x1.b800000000001p+6%float
  /\ PrimFloat.ltb 110 (target 0 Scenario.entered) = true
  /\ stageFires 110 0 Scenario.entered = false
  /\ Scenario.pass 110 (Scenario.holding [Scenario.entered]) Scenario.quiet
     = (Returned, Scenario.holding [Scenario.entered],
        Scenario.mkWorld [Scenario.PriceCall "MINT"] [])
  /\ Scenario.pass 110 (Scenario.holding [Scenario.halfSold 110]) Scenario.quiet
     = (Returned, Scenario.holding [Scenario.halfSold 110],
        Scenario.mkWorld [Scenario.PriceCall "MINT"] [])
  /\ Scenario.pass 126 (Scenario.holding [Scenario.halfSold 110]) Scenario.quiet
     = (Returned, Scenario.holding [Scenario.allSold 126],
        Scenario.mkWorld
          [Scenario.PriceCall "MINT"; Scenario.SellCall "MINT" 0.5 "s3cr3t"] [])
  /\ Scenario.pass 126 (Scenario.holding [Scenario.entered]) Scenario.quiet
     = (Returned, Scenario.holding [Scenario.halfSold 126],
        Scenario.mkWorld
          [Scenario.PriceCall "MINT"; Scenario.SellCall "MINT" 0.5 "s3cr3t"] []).
Proof.
  split.
  { intros World getPrice autoBuy autoSell walletSecret repeat t w w1 p
      Hgate Hfin Hprice Hentry.
    rewrite (evalToken_stages getPrice autoBuy autoSell walletSecret repeat
               t w w1 p) by done.
    by rewrite profitStages_in_order. }
  split.
  { intros World autoSell walletSecret p i t w. split_and!.
    - apply stageFires_spec.
    - apply stageStep_quiet.
    - intros txId w' Hf Hs t'.
      destruct (afterSell_fields p i txId t) as (? & ? & ? & _ & ? & ?).
      subst t'. split_and!; try assumption. by apply stageStep_sold.
    - intros w'. apply stageStep_rejected. }
  repeat split; vm_compute; reflexivity.
Qed.

Lemma stage_evaluation_witness :
  evalToken (Scenario.priceIs 126) Scenario.buyResolves Scenario.sellPlanned
    "s3cr3t" true Scenario.entered Scenario.quiet
  = (Scenario.halfSold 126,
     Scenario.mkWorld
       [Scenario.PriceCall "MINT"; Scenario.SellCall "MINT" 0.5 "s3cr3t"] [])
  /\ stageStep Scenario.sellPlanned "s3cr3t" 126 0 Scenario.entered
       (Scenario.mkWorld [Scenario.PriceCall "MINT"] [])
     = (Scenario.halfSold 126,
        Scenario.mkWorld
          [Scenario.PriceCall "MINT"; Scenario.SellCall "MINT" 0.5 "s3cr3t"] []).
Proof.
  destruct stage_evaluation as (Hpass & Hstep & _).
  split.
  - rewrite (Hpass Scenario.World (Scenario.priceIs 126) Scenario.buyResolves
               Scenario.sellPlanned "s3cr3t" true Scenario.entered Scenario.quiet
               (Scenario.mkWorld [Scenario.PriceCall "MINT"] []) 126%float
               eq_refl eq_refl eq_refl eq_refl).
    vm_compute. reflexivity.
  - destruct (Hstep Scenario.World Scenario.sellPlanned "s3cr3t" 126%float
                0%nat Scenario.entered
                (Scenario.mkWorld [Scenario.PriceCall "MINT"] []))
      as (_ & _ & Hsold & _).
    exact (proj1 (Hsold "sell-tx"
                    (Scenario.mkWorld
                       [Scenario.PriceCall "MINT";
                        Scenario.SellCall "MINT" 0.5 "s3cr3t"] [])
                    eq_refl eq_refl)).
Defined.

(** C2. A token that is fully sold ([finished]) is skipped at the head of
    the loop body on every later pass: its status is set to [sold] and
    neither the price lookup nor the repeat-on-entry test is reached. With
    [repeatOnEntry] on, sold percentages adding up to 100 and a price of 90
    (at most the entry price 100) the fully sold token is left as it was,
    and no collaborator is called. *)
Theorem finished_token_not_rearmed :
  (forall (World : Type)
          (getPrice : string -> World -> option float * World)
          (autoBuy autoSell : string -> float -> string -> World -> option string * World)
          (walletSecret : string) (repeat : bool) (t : HoneyToken) (w : World),
      missingData t = false ->
      finished t = Some true ->
      evalToken getPrice autoBuy autoSell walletSecret repeat t w
      = (setStatus sold t, w))
  /\ repeatOnEntry (getHoneySettings "alice" (Scenario.holding [Scenario.allSold 126]))
     = true
  /\ repeatCondition true 90 (Scenario.allSold 126) = true
  /\ Scenario.pass 90 (Scenario.holding [Scenario.allSold 126]) Scenario.quiet
     = (Returned, Scenario.holding [Scenario.allSold 126], Scenario.quiet).
Proof.
  split.
  - intros. by apply evalToken_finished.
  - repeat split; vm_compute; reflexivity.
Qed.

(** C3. When the sale of stage [i] is rejected during the stage loop of
    a pass, the token's status is set to [error] and the loop goes on: the
    stages [i + 1] to the last one are each evaluated, in order, in the
    same pass, starting from the token so marked and the world the rejected
    call left; the pass then ends with the repeat-on-entry test on the
    outcome. Here [ti] and [wi] are the token and the world with which
    stage [i] is reached. *)
Theorem failed_sale_does_not_stop_loop {World : Type}
    (getPrice : string -> World -> option float * World)
    (autoBuy autoSell : string -> float -> string -> World -> option string * World)
    (walletSecret : string) (repeat : bool) (currentPrice : float) (i : nat)
    (t ti : HoneyToken) (w w1 wi w' : World) :
  missingData t = false ->
  JS.truthyOptBool (finished t) = false ->
  getPrice (address t) w = (Some currentPrice, w1) ->
  JS.truthyOptNum (lastEntryPrice t) = true ->
  (startStage t <= i < length (profitPercents t))%nat ->
  Laws.stagesInOrder autoSell walletSecret currentPrice
    (i - startStage t) (startStage t) t w1 = (ti, wi) ->
  stageFires currentPrice i ti = true ->
  autoSell (address ti) (sellAmount i ti) walletSecret wi = (None, w') ->
  stageStep autoSell walletSecret currentPrice i ti wi = (setStatus error ti, w')
  /\ status (setStatus error ti) = Some error
  /\ profitStages autoSell walletSecret currentPrice
       (length (profitPercents t) - startStage t) (startStage t) t w1
     = Laws.stagesInOrder autoSell walletSecret currentPrice
         (length (profitPercents t) - S i) (S i) (setStatus error ti) w'
  /\ evalToken getPrice autoBuy autoSell walletSecret repeat t w
     = let '(t1, w2) :=
         Laws.stagesInOrder autoSell walletSecret currentPrice
           (length (profitPercents t) - S i) (S i) (setStatus error ti) w' in
       if repeatCondition repeat currentPrice t1
       then (rearm t1, w2) else (t1, w2).
Proof.
  intros Hgate Hfin Hprice Hentry Hi Hreach Hfires Hsale.
  assert (stageStep autoSell walletSecret currentPrice i ti wi
          = (setStatus error ti, w')) as Hstep
    by by apply stageStep_rejected.
  assert (profitStages autoSell walletSecret currentPrice
            (length (profitPercents t) - startStage t) (startStage t) t w1
          = Laws.stagesInOrder autoSell walletSecret currentPrice
              (length (profitPercents t) - S i) (S i) (setStatus error ti) w')
    as Hloop.
  { rewrite profitStages_in_order.
    replace (length (profitPercents t) - startStage t)%nat
      with ((i - startStage t) + S (length (profitPercents t) - S i))%nat by lia.
    rewrite stagesInOrder_app, Hreach. simpl.
    replace (startStage t + (i - startStage t))%nat with i by lia.
    by rewrite stagesInOrder_step, Hstep. }
  split_and!; try done.
  rewrite (evalToken_stages getPrice autoBuy autoSell walletSecret repeat
             t w w1 currentPrice) by done.
  by rewrite Hloop.
Qed.

(** At 126 the first and the third stage of the three-stage token are due
    and the second is not. With the first sale rejected, the pass goes on
    past the second stage and sells the third, which finishes the token.
    With both sales of the two-stage token rejected, both are attempted and
    the token ends with status [error]. *)
Lemma failed_sale_does_not_stop_loop_witness :
  evalToken (Scenario.priceIs 126) Scenario.buyResolves Scenario.sellPlanned
    "s3cr3t" true Scenario2.threeStages (Scenario.mkWorld [] [false])
  = (Scenario2.thirdStageSold,
     Scenario.mkWorld
       [Scenario.PriceCall "MINT"; Scenario.SellCall "MINT" 0.5 "s3cr3t";
        Scenario.SellCall "MINT" 0.25 "s3cr3t"] [])
  /\ Scenario.pass 126 (Scenario.holding [Scenario.entered])
       (Scenario.mkWorld [] [false; false])
     = (Returned, Scenario.holding [setStatus error Scenario.entered],
        Scenario.mkWorld
          [Scenario.PriceCall "MINT"; Scenario.SellCall "MINT" 0.5 "s3cr3t";
           Scenario.SellCall "MINT" 0.5 "s3cr3t"] []).
Proof.
  split; [|vm_compute; reflexivity].
  destruct (failed_sale_does_not_stop_loop (Scenario.priceIs 126)
              Scenario.buyResolves Scenario.sellPlanned "s3cr3t" true 126%float
              0%nat Scenario2.threeStages Scenario2.threeStages
              (Scenario.mkWorld [] [false])
              (Scenario.mkWorld [Scenario.PriceCall "MINT"] [false])
              (Scenario.mkWorld [Scenario.PriceCall "MINT"] [false])
              (Scenario.mkWorld
                 [Scenario.PriceCall "MINT"; Scenario.SellCall "MINT" 0.5 "s3cr3t"]
                 [])
              eq_refl eq_refl eq_refl eq_refl ltac:(vm_compute; lia)
              eq_refl eq_refl eq_refl) as (_ & _ & _ & ->).
  vm_compute. reflexivity.
Defined.

(** *** The entry step *)



(** *** The wallet gate *)

(** C4. [executeHoneyStrategy] throws the wallet error exactly when the
    user record is absent or carries no (or an empty) secret; it then
    returns before any collaborator is called, with [users] untouched. In
    every other case the pass completes. *)
Theorem executeHoneyStrategy_wallet_gate {World : Type}
    (getPrice : string -> World -> option float * World)
    (autoBuy autoSell : string -> float -> string -> World -> option string * World)
    (userId : string) (users : Users) (w : World) :
  let r := executeHoneyStrategy getPrice autoBuy autoSell userId users w in
  (r.1.1 = Thrown walletMessage <-> noWallet userId users)
  /\ (noWallet userId users -> r = (Thrown walletMessage, users, w))
  /\ (~ noWallet userId users -> r.1.1 = Returned).
Proof.
  unfold executeHoneyStrategy, noWallet.
  destruct (users !! userId) as [u|]; [|by intuition].
  destruct (secret u) as [[|c s]|]; simpl; [by intuition| |by intuition].
  destruct (evalTokens _ _ _ _ _ _ _) as [l w']. simpl.
  repeat split; try done; intros [?|?]; done.
Qed.

Lemma executeHoneyStrategy_wallet_gate_witness :
  Scenario.pass 100 (<["alice" := mkUser (Some "") None ∅]> ∅) Scenario.quiet
  = (Thrown walletMessage, <["alice" := mkUser (Some "") None ∅]> ∅, Scenario.quiet)
  /\ (Scenario.pass 100 ∅ Scenario.quiet).1.1 = Thrown walletMessage
  /\ (Scenario.pass 100 (Scenario.holding [Scenario.fresh]) Scenario.quiet).1.1
     = Returned.
Proof.
  split; [|split].
  - apply (executeHoneyStrategy_wallet_gate (Scenario.priceIs 100)
             Scenario.buyResolves Scenario.sellPlanned "alice"
             (<["alice" := mkUser (Some "") None ∅]> ∅) Scenario.quiet).
    vm_compute. by right.
  - apply (executeHoneyStrategy_wallet_gate (Scenario.priceIs 100)
             Scenario.buyResolves Scenario.sellPlanned "alice" ∅ Scenario.quiet).
    vm_compute. exact I.
  - apply (executeHoneyStrategy_wallet_gate (Scenario.priceIs 100)
             Scenario.buyResolves Scenario.sellPlanned "alice"
             (Scenario.holding [Scenario.fresh]) Scenario.quiet).
    vm_compute. intros [?|?]; discriminate.
Defined.

End UserStrategyFacts.

(** ** The lock file *)

Module FileLockFacts.
Import FileLock.

Lemma lockFile_blocked clock m file locks :
  locks !! lockPath file = Some m ->
  (forall k, abandoned (clock k) m = false) ->
  forall fuel run, lockFile clock fuel run file locks = None.
Proof.
  intros Hm Hfresh fuel. induction fuel as [|fuel IH]; intros run; simpl; [done|].
  unfold tryLock. rewrite Hm, Hfresh. apply IH.
Qed.

(** X1. A marker older than 2000 ms is removed by the first run of
    [tryLock] and the lock is taken by the second, whoever wrote the marker
    and whether or not its owner is still at work: one run is never enough,
    two always are, and the marker then carries the time of the second
    run. *)
Theorem lockFile_reclaims_abandoned (clock : nat -> Z) (fuel run : nat)
    (file : string) (locks : Locks) (ts : Z) :
  locks !! lockPath file = Some (Stamp ts) ->
  2000 < clock run - ts ->
  lockFile clock 1 run file locks = None
  /\ lockFile clock (S (S fuel)) run file locks
     = Some (<[lockPath file := Stamp (clock (S run))]> locks).
Proof.
  intros Hm Hold.
  assert (tryLock (clock run) file locks = (false, delete (lockPath file) locks))
    as Hfirst.
  { unfold tryLock. rewrite Hm. simpl.
    by destruct (Z.ltb_spec 2000 (clock run - ts)); [|lia]. }
  split; cbn [lockFile]; rewrite Hfirst; [done|].
  unfold tryLock. rewrite lookup_delete_eq. by rewrite insert_delete_eq.
Qed.

Lemma lockFile_reclaims_abandoned_witness :
  lockFile (Scenario2.ticking 5000) 2 0 "sent/alice.json"
    {[ lockPath "sent/alice.json" := Stamp 2999 ]}
  = Some {[ lockPath "sent/alice.json" := Stamp 5020 ]}.
Proof.
  assert (({[ lockPath "sent/alice.json" := Stamp 2999 ]} : Locks)
            !! lockPath "sent/alice.json" = Some (Stamp 2999)) as Hm
    by (vm_compute; reflexivity).
  assert (2000 < Scenario2.ticking 5000 0 - 2999) as Hold
    by (vm_compute; reflexivity).
  destruct (lockFile_reclaims_abandoned (Scenario2.ticking 5000) 0 0
              "sent/alice.json" {[ lockPath "sent/alice.json" := Stamp 2999 ]}
              2999 Hm Hold) as [_ ->].
  vm_compute. reflexivity.
Defined.

(** X2. A marker that no run finds older than 2000 ms is never removed and
    the lock is never taken, however many runs are made; a marker whose
    content is not a number is in that case for every clock, so a waiter
    polls it for ever. *)
Theorem lockFile_never_takes_held_lock (file : string) (locks : Locks) (m : Marker) :
  locks !! lockPath file = Some m ->
  (forall clock fuel run,
      (forall k, abandoned (clock k) m = false) ->
      lockFile clock fuel run file locks = None)
  /\ (m = Garbled ->
      forall clock fuel run, lockFile clock fuel run file locks = None).
Proof.
  intros Hm. split.
  - intros clock fuel run Hfresh. by apply (lockFile_blocked clock m).
  - intros -> clock fuel run. by apply (lockFile_blocked clock Garbled).
Qed.

Lemma lockFile_never_takes_held_lock_witness :
  lockFile (Scenario2.ticking 5000) 500 0 "sent/alice.json"
    {[ lockPath "sent/alice.json" := Garbled ]} = None.
Proof.
  assert (({[ lockPath "sent/alice.json" := Garbled ]} : Locks)
            !! lockPath "sent/alice.json" = Some Garbled) as Hm
    by (vm_compute; reflexivity).
  apply (lockFile_never_takes_held_lock "sent/alice.json"
           {[ lockPath "sent/alice.json" := Garbled ]} Garbled Hm).
  reflexivity.
Defined.

(** X3. On a file without a marker the first run takes the lock and writes
    the time of that run; [unlockFile] then restores the markers as they
    were, and neither touches the marker of another file. Unlocking a file
    that has no marker changes nothing. *)
Theorem lockFile_unlockFile_round_trip (clock : nat -> Z) (fuel run : nat)
    (file : string) (locks : Locks) :
  locks !! lockPath file = None ->
  lockFile clock (S fuel) run file locks
  = Some (<[lockPath file := Stamp (clock run)]> locks)
  /\ unlockFile file (<[lockPath file := Stamp (clock run)]> locks) = locks
  /\ unlockFile file locks = locks
  /\ (forall other, lockPath other <> lockPath file ->
        <[lockPath file := Stamp (clock run)]> locks !! lockPath other
        = locks !! lockPath other).
Proof.
  intros Hfree. split_and!.
  - simpl. unfold tryLock. by rewrite Hfree.
  - unfold unlockFile. rewrite lookup_insert_eq. by apply delete_insert_id.
  - unfold unlockFile. by rewrite Hfree.
  - intros other Hne. by apply lookup_insert_ne.
Qed.

Lemma lockFile_unlockFile_round_trip_witness :
  lockFile (Scenario2.ticking 5000) 1 0 "sent/alice.json" ∅
  = Some {[ lockPath "sent/alice.json" := Stamp 5000 ]}
  /\ unlockFile "sent/alice.json" {[ lockPath "sent/alice.json" := Stamp 5000 ]} = ∅.
Proof.
  destruct (lockFile_unlockFile_round_trip (Scenario2.ticking 5000) 0 0
              "sent/alice.json" ∅ (lookup_empty _)) as (Hlock & Hunlock & _).
  split; [exact Hlock | exact Hunlock].
Defined.

End FileLockFacts.

(** ** Laws of the sent-token ledger *)

Module LedgerLaws.
Import JS TelegramBot TelegramBotFacts Laws.

Lemma writeFile_cases writeOk userId data files :
  writeFile writeOk userId data files = files
  \/ writeFile writeOk userId data files = <[userId := Records data]> files.
Proof.
  unfold writeFile. simpl.
  destruct (writeOk 0%nat), (writeOk 1%nat), (writeOk 2%nat); auto.
Qed.

Lemma writeFile_fails writeOk userId data files :
  neverWrites writeOk -> writeFile writeOk userId data files = files.
Proof. intros (H0 & H1 & H2). unfold writeFile. simpl. by rewrite H0, H1, H2. Qed.

Lemma writeFile_attempts writeOk writeOk' userId data files :
  writeOk 0%nat || writeOk 1%nat || writeOk 2%nat
  = writeOk' 0%nat || writeOk' 1%nat || writeOk' 2%nat ->
  writeFile writeOk userId data files = writeFile writeOk' userId data files.
Proof.
  unfold writeFile. simpl.
  destruct (writeOk 0%nat), (writeOk 1%nat), (writeOk 2%nat),
    (writeOk' 0%nat), (writeOk' 1%nat), (writeOk' 2%nat); done.
Qed.

Lemma kept_sublist now arr : List.filter (keep now) arr `sublist_of` arr.
Proof.
  induction arr as [|r arr IH]; simpl; [constructor|].
  destruct (keep now r); by constructor.
Qed.

Lemma kept_all now arr :
  length (List.filter (keep now) arr) = length arr -> List.filter (keep now) arr = arr.
Proof.
  intros Hlen. apply forallb_filter_id. by apply filter_length_forallb.
Qed.

Lemma kept_kept now arr :
  List.filter (keep now) (List.filter (keep now) arr) = List.filter (keep now) arr.
Proof.
  apply forallb_filter_id, forallb_forall.
  intros r Hin. by apply filter_In in Hin as [_ Hk].
Qed.

Lemma stored_records userId files r :
  r ∈ stored userId files ->
  exists arr, files !! userId = Some (Records arr) /\ r ∈ arr.
Proof.
  unfold stored, loaded.
  destruct (files !! userId) as [[| |arr]|]; try by intros ?%elem_of_nil.
  intros Hin. by exists arr.
Qed.

Lemma stored_insert userId data files :
  stored userId (<[userId := Records data]> files) = data.
Proof. unfold stored. by rewrite lookup_insert_eq. Qed.

(** What an append does to the file: nothing, or it persists the pruned
    array with the new record, cut to capacity. *)
Lemma appendSentHash_cases writeOk userId h now files :
  appendSentHash writeOk userId h now files = files
  \/ (hasHash h (List.filter (keep now) (stored userId files)) = false
      /\ appendSentHash writeOk userId h now files
         = <[userId :=
              Records (keepLast (dropOldest
                (List.filter (keep now) (stored userId files) ++ [mkRecord h now])))]>
             files).
Proof.
  assert (forall arr,
            (if hasHash h (List.filter (keep now) arr) then files
             else writeFile writeOk userId
                    (keepLast (dropOldest
                       (List.filter (keep now) arr ++ [mkRecord h now]))) files)
            = files
            \/ (hasHash h (List.filter (keep now) arr) = false
                /\ (if hasHash h (List.filter (keep now) arr) then files
                    else writeFile writeOk userId
                           (keepLast (dropOldest
                              (List.filter (keep now) arr ++ [mkRecord h now])))
                           files)
                   = <[userId :=
                        Records (keepLast (dropOldest
                          (List.filter (keep now) arr ++ [mkRecord h now])))]>
                       files)) as Hbody.
  { intros arr. destruct (hasHash h (List.filter (keep now) arr)); [by left|].
    destruct (writeFile_cases writeOk userId
                (keepLast (dropOldest
                   (List.filter (keep now) arr ++ [mkRecord h now]))) files)
      as [->| ->]; auto. }
  unfold appendSentHash, stored.
  destruct (files !! userId) as [[| |arr]|] eqn:E.
  - by left.
  - apply (Hbody []).
  - apply (Hbody arr).
  - apply (Hbody []).
Qed.

Lemma capacity_length (arr : list DedupRecord) :
  Z.of_nat (length (keepLast (dropOldest arr))) <= 6000
  /\ (Z.of_nat (length arr) <= 3000 ->
      Z.of_nat (length (keepLast (dropOldest arr))) < 3000).
Proof.
  unfold keepLast, dropOldest.
  destruct (Z.leb_spec 3000 (Z.of_nat (length arr))) as [Hn|Hn].
  - destruct (Z.ltb_spec 6000 (Z.of_nat (length (drop 10 arr)))) as [Hd|Hd];
      rewrite ?length_drop in *; lia.
  - destruct (Z.ltb_spec 6000 (Z.of_nat (length arr))); lia.
Qed.

Lemma capacity_sublist (arr : list DedupRecord) :
  keepLast (dropOldest arr) `sublist_of` arr.
Proof.
  unfold keepLast, dropOldest.
  destruct (3000 <=? _); destruct (6000 <? _);
    repeat (etrans; [apply sublist_drop|]); done.
Qed.

Lemma fresh_record_kept h now later :
  h <> "" -> later - now < 86400000 -> keep later (mkRecord h now) = true.
Proof. intros Hh Hl. apply keep_spec. simpl. by split. Qed.

(** X4. A digest that has just been appended is reported by
    [readSentHashes]: for a non-empty digest, a ledger file that parses and
    a write that goes through, a read at the time of the append finds the
    digest, whether the append wrote a record or found one; when it wrote
    one, so does every read made less than a day later, however many
    records the capacity rules dropped. *)
Theorem appendSentHash_then_read (writeOk readOk : nat -> bool)
    (userId h : string) (now : Z) (files : Files) :
  files !! userId <> Some Unparsable ->
  h <> "" ->
  writeOk 0%nat || writeOk 1%nat || writeOk 2%nat = true ->
  h ∈ (readSentHashes readOk userId now
         (appendSentHash writeOk userId h now files)).1
  /\ (hasHash h (List.filter (keep now) (stored userId files)) = false ->
      forall later, later - now < 86400000 ->
        h ∈ (readSentHashes readOk userId later
               (appendSentHash writeOk userId h now files)).1).
Proof.
  intros Hp Hh Hok.
  assert (hasHash h (List.filter (keep now) (stored userId files)) = false ->
          forall later, later - now < 86400000 ->
            h ∈ (readSentHashes readOk userId later
                   (appendSentHash writeOk userId h now files)).1) as Hnew.
  { intros Hfresh later Hl. unfold stored in Hfresh.
    rewrite appendSentHash_fresh by done. rewrite writeFile_succeeds by done.
    apply readSentHashes_digest. eexists _, (mkRecord h now).
    split; [apply lookup_insert_eq|].
    split; [apply pushed_record_survives|].
    split; [by apply fresh_record_kept | done]. }
  split; [|exact Hnew].
  destruct (hasHash h (List.filter (keep now) (stored userId files))) eqn:Hd.
  - assert (appendSentHash writeOk userId h now files = files) as ->.
    { destruct (appendSentHash_cases writeOk userId h now files)
        as [Hsame|[Hfresh _]]; [done|congruence]. }
    apply hasHash_spec in Hd as (r & [Hin Hk]%elem_of_kept & Hr).
    apply stored_records in Hin as (arr & Hfile & Hin).
    apply readSentHashes_digest. by exists arr, r.
  - apply Hnew; [done|lia].
Qed.

Lemma appendSentHash_then_read_witness :
  "fresh-digest"
  ∈ (readSentHashes Scenario.always "alice" (Scenario.noon + 86399999)
       (appendSentHash Scenario.always "alice" "fresh-digest" Scenario.noon
          (Scenario.ledgerOf Scenario.nearlyFull))).1.
Proof.
  assert (Scenario.ledgerOf Scenario.nearlyFull !! "alice" <> Some Unparsable)
    as Hp by discriminate.
  assert (hasHash "fresh-digest"
            (List.filter (keep Scenario.noon)
               (stored "alice" (Scenario.ledgerOf Scenario.nearlyFull)))
          = false) as Hfresh by (vm_compute; reflexivity).
  destruct (appendSentHash_then_read Scenario.always Scenario.always "alice"
              "fresh-digest" Scenario.noon (Scenario.ledgerOf Scenario.nearlyFull)
              Hp ltac:(discriminate) eq_refl) as [_ Hlater].
  apply (Hlater Hfresh). lia.
Defined.

(** X5. An append never leaves more than 6000 records in a file it
    writes, whatever the size of the file it read, and a ledger that holds
    fewer than 3000 records still does after any append: a ledger grown by
    appends alone never reaches 3000 records. *)
Theorem appendSentHash_bounded (writeOk : nat -> bool) (userId h : string)
    (now : Z) (files : Files) :
  (appendSentHash writeOk userId h now files = files
   \/ Z.of_nat (length (stored userId (appendSentHash writeOk userId h now files)))
      <= 6000)
  /\ (Z.of_nat (length (stored userId files)) < 3000 ->
      Z.of_nat (length (stored userId (appendSentHash writeOk userId h now files)))
      < 3000).
Proof.
  destruct (appendSentHash_cases writeOk userId h now files)
    as [->|[_ ->]]; [by auto|].
  rewrite stored_insert. split.
  - right. apply capacity_length.
  - intros Hsmall. apply capacity_length.
    rewrite length_app. simpl.
    pose proof (filter_length_le (keep now) (stored userId files)). lia.
Qed.

Lemma digests_of_kept now arr :
  (hash <$> List.filter (keep now) arr) `sublist_of` (hash <$> arr).
Proof. apply fmap_sublist, kept_sublist. Qed.

(** X6. Appends keep the digests of a ledger file pairwise distinct: if no
    two stored records carry the same digest, the same holds after any
    append, whether it writes or not. *)
Theorem appendSentHash_keeps_digests_distinct (writeOk : nat -> bool)
    (userId h : string) (now : Z) (files : Files) :
  NoDup (hash <$> stored userId files) ->
  NoDup (hash <$> stored userId (appendSentHash writeOk userId h now files)).
Proof.
  intros Hnd.
  destruct (appendSentHash_cases writeOk userId h now files)
    as [->|[Hfresh ->]]; [done|].
  rewrite stored_insert.
  eapply sublist_NoDup; [|apply fmap_sublist, capacity_sublist].
  rewrite fmap_app. apply NoDup_app. split_and!.
  - eapply sublist_NoDup; [exact Hnd | apply digests_of_kept].
  - intros d Hd [->|[]%elem_of_nil]%elem_of_cons.
    apply list_elem_of_fmap in Hd as (r & Hr & Hin).
    assert (hasHash h (List.filter (keep now) (stored userId files)) = true)
      as Hdup by (apply hasHash_spec; by exists r).
    congruence.
  - apply NoDup_singleton.
Qed.

Lemma appendSentHash_keeps_digests_distinct_witness :
  NoDup (hash <$> stored "alice"
           (appendSentHash Scenario.always "alice" "d3" Scenario.noon
              (Scenario.ledgerOf Scenario.aroundOneDay))).
Proof.
  apply (appendSentHash_keeps_digests_distinct Scenario.always "alice" "d3"
           Scenario.noon (Scenario.ledgerOf Scenario.aroundOneDay)).
  apply (bool_decide_unpack _). vm_compute. reflexivity.
Defined.

(** X7. A ledger file whose text does not parse is never repaired: an
    append returns without writing, every read reports no digest and leaves
    the file alone, so the digest just appended is not reported either. *)
Theorem unparsable_ledger_loses_appends (writeOk readOk : nat -> bool)
    (userId h : string) (now later : Z) (files : Files) :
  files !! userId = Some Unparsable ->
  appendSentHash writeOk userId h now files = files
  /\ readSentHashes readOk userId later files = (∅, files)
  /\ h ∉ (readSentHashes readOk userId later
            (appendSentHash writeOk userId h now files)).1.
Proof.
  intros Hfile.
  assert (appendSentHash writeOk userId h now files = files) as ->
    by (unfold appendSentHash; by rewrite Hfile).
  assert (readSentHashes readOk userId later files = (∅, files)) as ->
    by (unfold readSentHashes; by rewrite Hfile).
  by split_and!.
Qed.

Lemma unparsable_ledger_loses_appends_witness :
  appendSentHash Scenario.always "alice" "d1" Scenario.noon {[ "alice" := Unparsable ]}
  = {[ "alice" := Unparsable ]}
  /\ readSentHashes Scenario.always "alice" Scenario.noon {[ "alice" := Unparsable ]}
     = (∅, {[ "alice" := Unparsable ]}).
Proof.
  destruct (unparsable_ledger_loses_appends Scenario.always Scenario.always
              "alice" "d1" Scenario.noon Scenario.noon {[ "alice" := Unparsable ]}
              (lookup_singleton_eq _ _)) as (Ha & Hr & _).
  split; [exact Ha | exact Hr].
Defined.

Lemma appendSentHash_unfold writeOk userId h now files :
  appendSentHash writeOk userId h now files
  = match files !! userId with
    | Some Unparsable => files
    | _ =>
        if hasHash h (List.filter (keep now) (stored userId files)) then files
        else writeFile writeOk userId
               (keepLast (dropOldest
                  (List.filter (keep now) (stored userId files)
                   ++ [mkRecord h now]))) files
    end.
Proof.
  unfold appendSentHash, stored. by destruct (files !! userId) as [[| |arr]|].
Qed.

Lemma appendSentHash_lost writeOk userId h now files :
  neverWrites writeOk -> appendSentHash writeOk userId h now files = files.
Proof.
  intros Hw. rewrite appendSentHash_unfold.
  destruct (hasHash h (List.filter (keep now) (stored userId files)));
    destruct (files !! userId) as [[| |arr]|]; try done; by apply writeFile_fails.
Qed.

Lemma readSentHashes_not_persisted writeOk userId now files :
  neverWrites writeOk -> (readSentHashes writeOk userId now files).2 = files.
Proof.
  intros Hw. unfold readSentHashes.
  destruct (files !! userId) as [[| |arr]|]; simpl; try done.
  destruct (length _ =? length _)%nat; [done|]. by apply writeFile_fails.
Qed.

Lemma readSentHashes_same_file writeOk writeOk' userId now files files' :
  files !! userId = files' !! userId ->
  (readSentHashes writeOk userId now files).1
  = (readSentHashes writeOk' userId now files').1.
Proof.
  intros Heq. unfold readSentHashes. rewrite <- Heq.
  by destruct (files !! userId) as [[| |arr]|].
Qed.

(** X8. Failed writes are swallowed. When the three attempts all fail, an
    append leaves the ledger as it was (the record is lost) and a read
    leaves the expired records in the file; the digests a read returns are
    the fresh ones all the same. No fourth attempt is made: the outcome
    depends only on whether one of the first three attempts succeeds, not
    on which. *)
Theorem write_failures_are_swallowed (writeOk : nat -> bool) (userId h : string)
    (now : Z) (files : Files) :
  (neverWrites writeOk ->
   appendSentHash writeOk userId h now files = files
   /\ (readSentHashes writeOk userId now files).2 = files)
  /\ (forall writeOk',
        (readSentHashes writeOk userId now files).1
        = (readSentHashes writeOk' userId now files).1)
  /\ (forall writeOk',
        writeOk 0%nat || writeOk 1%nat || writeOk 2%nat
        = writeOk' 0%nat || writeOk' 1%nat || writeOk' 2%nat ->
        appendSentHash writeOk userId h now files
        = appendSentHash writeOk' userId h now files
        /\ readSentHashes writeOk userId now files
           = readSentHashes writeOk' userId now files).
Proof.
  split_and!.
  - intros Hw. split; [by apply appendSentHash_lost|].
    by apply readSentHashes_not_persisted.
  - intros writeOk'. by apply readSentHashes_same_file.
  - intros writeOk' Hsame. split.
    + rewrite !appendSentHash_unfold.
      destruct (hasHash h (List.filter (keep now) (stored userId files)));
        destruct (files !! userId) as [[| |arr]|]; try done;
        by apply writeFile_attempts.
    + unfold readSentHashes.
      destruct (files !! userId) as [[| |arr]|]; simpl; try done.
      destruct (length _ =? length _)%nat; [done|].
      by rewrite (writeFile_attempts writeOk writeOk').
Qed.

Lemma write_failures_are_swallowed_witness :
  appendSentHash Scenario2.never "alice" "d3" Scenario.noon
    (Scenario.ledgerOf Scenario.aroundOneDay)
  = Scenario.ledgerOf Scenario.aroundOneDay
  /\ readSentHashes Scenario2.never "alice" Scenario.noon
       (Scenario.ledgerOf Scenario.aroundOneDay)
     = ({[ "d2" ]}, Scenario.ledgerOf Scenario.aroundOneDay)
  /\ appendSentHash Scenario2.thirdTime "alice" "d3" Scenario.noon
       (Scenario.ledgerOf Scenario.aroundOneDay)
     = appendSentHash Scenario.always "alice" "d3" Scenario.noon
         (Scenario.ledgerOf Scenario.aroundOneDay).
Proof.
  destruct (write_failures_are_swallowed Scenario2.never "alice" "d3"
              Scenario.noon (Scenario.ledgerOf Scenario.aroundOneDay))
    as (Hlost & _ & _).
  destruct (write_failures_are_swallowed Scenario2.thirdTime "alice" "d3"
              Scenario.noon (Scenario.ledgerOf Scenario.aroundOneDay))
    as (_ & _ & Hsame).
  split_and!.
  - by apply Hlost.
  - vm_compute. reflexivity.
  - by apply (Hsame Scenario.always).
Defined.

(** X9. A read whose write goes through leaves in the file exactly the
    records it kept, in their order; a second read at the same time returns
    the same digests and writes nothing. *)
Theorem readSentHashes_prunes_once (writeOk readOk : nat -> bool)
    (userId : string) (now : Z) (files : Files) (arr : list DedupRecord) :
  files !! userId = Some (Records arr) ->
  writeOk 0%nat || writeOk 1%nat || writeOk 2%nat = true ->
  (readSentHashes writeOk userId now files).2 !! userId
  = Some (Records (List.filter (keep now) arr))
  /\ readSentHashes readOk userId now (readSentHashes writeOk userId now files).2
     = readSentHashes writeOk userId now files.
Proof.
  intros Hfile Hok. unfold readSentHashes at 1 3 4. rewrite Hfile. simpl.
  destruct (Nat.eqb_spec (length (List.filter (keep now) arr)) (length arr))
    as [Hlen|Hlen].
  - apply kept_all in Hlen as Hall. split; [by rewrite Hall|].
    unfold readSentHashes. rewrite Hfile. simpl.
    by rewrite Hall, Nat.eqb_refl.
  - rewrite writeFile_succeeds by done. split; [apply lookup_insert_eq|].
    unfold readSentHashes. rewrite lookup_insert_eq. simpl.
    by rewrite kept_kept, Nat.eqb_refl.
Qed.

Lemma readSentHashes_prunes_once_witness :
  (readSentHashes Scenario.always "alice" Scenario.noon
     (Scenario.ledgerOf Scenario.aroundOneDay)).2 !! "alice"
  = Some (Records [mkRecord "d2" (Scenario.noon - 86399999)]).
Proof.
  destruct (readSentHashes_prunes_once Scenario.always Scenario.always "alice"
              Scenario.noon (Scenario.ledgerOf Scenario.aroundOneDay)
              Scenario.aroundOneDay (lookup_singleton_eq _ _) eq_refl)
    as [-> _].
  vm_compute. reflexivity.
Defined.

(** X10. The ledger of one user is never touched on behalf of another: an
    append or a read for [userId] leaves the file of every other user as it
    was, and with it the digests a read for that user returns. *)
Theorem other_ledgers_untouched (writeOk readOk : nat -> bool)
    (userId other h : string) (now later : Z) (files : Files) :
  other <> userId ->
  appendSentHash writeOk userId h now files !! other = files !! other
  /\ (readSentHashes writeOk userId now files).2 !! other = files !! other
  /\ (readSentHashes readOk other later
        (appendSentHash writeOk userId h now files)).1
     = (readSentHashes readOk other later files).1.
Proof.
  intros Hne.
  assert (appendSentHash writeOk userId h now files !! other = files !! other)
    as Happ.
  { destruct (appendSentHash_cases writeOk userId h now files)
      as [->|[_ ->]]; [done|]. by apply lookup_insert_ne. }
  split_and!; [exact Happ| |by apply readSentHashes_same_file].
  unfold readSentHashes.
  destruct (files !! userId) as [[| |arr]|]; simpl; try done.
  destruct (length _ =? length _)%nat; [done|].
  destruct (writeFile_cases writeOk userId (List.filter (keep now) arr) files)
    as [->| ->]; [done|]. by apply lookup_insert_ne.
Qed.

Lemma other_ledgers_untouched_witness :
  appendSentHash Scenario.always "bob" "d3" Scenario.noon
    (Scenario.ledgerOf Scenario.aroundOneDay) !! "alice"
  = Some (Records Scenario.aroundOneDay).
Proof.
  destruct (other_ledgers_untouched Scenario.always Scenario.always "bob" "alice"
              "d3" Scenario.noon Scenario.noon
              (Scenario.ledgerOf Scenario.aroundOneDay) ltac:(discriminate))
    as [-> _].
  apply lookup_singleton_eq.
Defined.

(** X11. A digest expires with the record that an append wrote for it:
    when the append found no fresh record of the digest, no read made
    86,400,000 ms after it or later reports the digest. *)
Theorem appended_digest_expires (writeOk readOk : nat -> bool)
    (userId h : string) (now later : Z) (files : Files) :
  hasHash h (List.filter (keep now) (stored userId files)) = false ->
  86400000 <= later - now ->
  h ∉ (readSentHashes readOk userId later
         (appendSentHash writeOk userId h now files)).1.
Proof.
  intros Hfresh Hlate (arr & r & Hfile & Hin & Hk & Hr)%readSentHashes_digest.
  apply keep_spec in Hk as [Hh Hage].
  assert (r ∈ List.filter (keep now) (stored userId files) -> False) as Hold.
  { intros Hr'. assert (hasHash h (List.filter (keep now) (stored userId files))
                        = true) as Hdup by (apply hasHash_spec; by exists r).
    congruence. }
  destruct (appendSentHash_cases writeOk userId h now files)
    as [Hsame|[_ Hnew]].
  - apply Hold, elem_of_kept. rewrite Hsame in Hfile. split.
    + unfold stored. by rewrite Hfile.
    + apply keep_spec. split; [done|lia].
  - rewrite Hnew, lookup_insert_eq in Hfile. injection Hfile as <-.
    eapply elem_of_sublist in Hin; [|apply capacity_sublist].
    apply elem_of_app in Hin as [Hin|Hin]; [by apply Hold|].
    apply list_elem_of_singleton in Hin as ->. simpl in Hage. lia.
Qed.

Lemma appended_digest_expires_witness :
  ("d3" ∉ (readSentHashes Scenario.always "alice" (Scenario.noon + 86400000)
             (appendSentHash Scenario.always "alice" "d3" Scenario.noon
                (Scenario.ledgerOf Scenario.aroundOneDay))).1)
  /\ ("d3" ∈ (readSentHashes Scenario.always "alice" (Scenario.noon + 86399999)
                (appendSentHash Scenario.always "alice" "d3" Scenario.noon
                   (Scenario.ledgerOf Scenario.aroundOneDay))).1).
Proof.
  split.
  - apply (appended_digest_expires Scenario.always Scenario.always "alice" "d3"
             Scenario.noon (Scenario.noon + 86400000)
             (Scenario.ledgerOf Scenario.aroundOneDay)).
    + vm_compute. reflexivity.
    + lia.
  - apply (bool_decide_unpack _). vm_compute. reflexivity.
Defined.

(** X29. [readSentHashes] reports stored digests only, and never the empty
    string: every digest in the result is the non-empty digest of a record
    of the user's file that is younger than a day. *)
Theorem readSentHashes_reports_stored_digests (writeOk : nat -> bool)
    (userId h : string) (now : Z) (files : Files) :
  h ∈ (readSentHashes writeOk userId now files).1 ->
  h <> ""
  /\ exists r, r ∈ stored userId files /\ hash r = h /\ now - ts r < 86400000.
Proof.
  intros (arr & r & Hfile & Hin & [Hh Hage]%keep_spec & Hr)%readSentHashes_digest.
  split; [congruence|]. exists r. unfold stored. by rewrite Hfile.
Qed.

Lemma readSentHashes_reports_stored_digests_witness :
  exists r, r ∈ stored "alice" (Scenario.ledgerOf Scenario.aroundOneDay)
            /\ hash r = "d2" /\ Scenario.noon - ts r < 86400000.
Proof.
  assert ("d2" ∈ (readSentHashes Scenario.always "alice" Scenario.noon
                    (Scenario.ledgerOf Scenario.aroundOneDay)).1) as Hin
    by (apply (bool_decide_unpack _); vm_compute; reflexivity).
  exact (proj2 (readSentHashes_reports_stored_digests Scenario.always "alice"
                  "d2" Scenario.noon (Scenario.ledgerOf Scenario.aroundOneDay)
                  Hin)).
Defined.

End LedgerLaws.

(** ** Laws of the strategy store *)

Module StoreLaws.
Import UserStrategy UserStrategyFacts Laws.

Lemma tokens_after_set userId settings users :
  tokens (getHoneySettings userId (setHoneySettings userId settings users))
  = tokens settings.
Proof. by rewrite getHoneySettings_set. Qed.

Lemma setHoneySettings_twice userId s1 s2 users :
  setHoneySettings userId s2 (setHoneySettings userId s1 users)
  = setHoneySettings userId s2 users.
Proof.
  unfold setHoneySettings. rewrite lookup_insert_eq. simpl.
  by rewrite insert_insert_eq.
Qed.

Lemma without_sublist a (l : list HoneyToken) :
  List.filter (fun t => negb (String.eqb (address t) a)) l `sublist_of` l.
Proof.
  induction l as [|t l IH]; simpl; [constructor|].
  destruct (negb _); by constructor.
Qed.

Lemma elem_of_without a (l : list HoneyToken) t :
  t ∈ List.filter (fun t => negb (String.eqb (address t) a)) l
  <-> t ∈ l /\ address t <> a.
Proof.
  rewrite !list_elem_of_In, filter_In, negb_true_iff.
  by rewrite String.eqb_neq.
Qed.

Lemma without_absent a (l : list HoneyToken) :
  (forall t, t ∈ l -> address t <> a) ->
  List.filter (fun t => negb (String.eqb (address t) a)) l = l.
Proof.
  intros Habs. apply forallb_filter_id, forallb_forall.
  intros t Hin. apply negb_true_iff, String.eqb_neq, Habs.
  by apply list_elem_of_In.
Qed.

Lemma without_twice a (l : list HoneyToken) :
  List.filter (fun t => negb (String.eqb (address t) a))
    (List.filter (fun t => negb (String.eqb (address t) a)) l)
  = List.filter (fun t => negb (String.eqb (address t) a)) l.
Proof.
  apply without_absent. by intros t [_ Hne]%elem_of_without.
Qed.

(** X12. What [setHoneySettings] stores is what [getHoneySettings] reads
    back. The write keeps the user's secret and other properties, creates
    a record (without a secret) for a user that has none, and leaves every
    other user's record alone. *)
Theorem setHoneySettings_round_trip (userId : string) (settings : HoneySettings)
    (users : Users) :
  getHoneySettings userId (setHoneySettings userId settings users) = settings
  /\ (forall u, users !! userId = Some u ->
        setHoneySettings userId settings users !! userId
        = Some (mkUser (secret u) (Some (store settings)) (profile u)))
  /\ (users !! userId = None ->
      setHoneySettings userId settings users !! userId
      = Some (mkUser None (Some (store settings)) ∅))
  /\ (forall other, other <> userId ->
        setHoneySettings userId settings users !! other = users !! other).
Proof.
  split_and!.
  - apply getHoneySettings_set.
  - intros u Hu. unfold setHoneySettings. by rewrite Hu, lookup_insert_eq.
  - intros Hu. unfold setHoneySettings. by rewrite Hu, lookup_insert_eq.
  - intros other Hne. unfold setHoneySettings. by rewrite lookup_insert_ne.
Qed.

(** X13. [removeHoneyToken] drops exactly the tokens at the given address
    and keeps the others in their order, with [repeatOnEntry] as it reads;
    removing an address that is not tracked leaves the token list as it
    was, and removing twice is the same as removing once. *)
Theorem removeHoneyToken_removes (userId a : string) (users : Users) :
  let before := getHoneySettings userId users in
  let after := getHoneySettings userId (removeHoneyToken userId a users) in
  (forall t, t ∈ tokens after <-> t ∈ tokens before /\ address t <> a)
  /\ tokens after `sublist_of` tokens before
  /\ repeatOnEntry after = repeatOnEntry before
  /\ ((forall t, t ∈ tokens before -> address t <> a) -> after = before)
  /\ removeHoneyToken userId a (removeHoneyToken userId a users)
     = removeHoneyToken userId a users.
Proof.
  intros before after. subst after. unfold removeHoneyToken.
  rewrite !getHoneySettings_set. fold before. simpl. split_and!.
  - intros t. apply elem_of_without.
  - apply without_sublist.
  - done.
  - intros Habs. rewrite without_absent by done. by destruct before.
  - by rewrite setHoneySettings_twice, without_twice.
Qed.

Lemma removeHoneyToken_removes_witness :
  tokens (getHoneySettings "alice"
            (removeHoneyToken "alice" "A3" (Scenario.holding Scenario.tenTokens)))
  = map Scenario.tokenAt ["A0"; "A1"; "A2"; "A4"; "A5"; "A6"; "A7"; "A8"; "A9"]
  /\ getHoneySettings "alice"
       (removeHoneyToken "alice" "ZZ" (Scenario.holding Scenario.tenTokens))
     = getHoneySettings "alice" (Scenario.holding Scenario.tenTokens).
Proof.
  split; [vm_compute; reflexivity|].
  destruct (removeHoneyToken_removes "alice" "ZZ"
              (Scenario.holding Scenario.tenTokens)) as (_ & _ & _ & Habs & _).
  apply Habs.
  assert (Forall (fun t => address t <> "ZZ")
            (tokens (getHoneySettings "alice" (Scenario.holding Scenario.tenTokens))))
    as Hall by (apply (bool_decide_unpack _); vm_compute; reflexivity).
  intros t Hin. by apply (proj1 (Forall_forall _ _) Hall).
Defined.

Lemma addHoneyToken_added userId token users :
  (length (tokens (getHoneySettings userId users)) < 10)%nat ->
  (forall t, t ∈ tokens (getHoneySettings userId users) ->
             address t <> address token) ->
  addHoneyToken userId token users
  = (Returned,
     setHoneySettings userId
       (mkSettings (tokens (getHoneySettings userId users) ++ [token])
          (repeatOnEntry (getHoneySettings userId users))) users).
Proof.
  intros Hlen Hnew. unfold addHoneyToken.
  destruct (Nat.leb_spec 10 (length (tokens (getHoneySettings userId users))));
    [lia|].
  destruct (hasAddress _ _) eqn:Hdup; [|done].
  apply hasAddress_spec in Hdup as (t & Hin & Heq). by destruct (Hnew t).
Qed.

Lemma addHoneyToken_outcomes userId token users :
  (addHoneyToken userId token users).2 = users
  \/ ((length (tokens (getHoneySettings userId users)) < 10)%nat
      /\ (address token ∉ address <$> tokens (getHoneySettings userId users))
      /\ (addHoneyToken userId token users).2
         = setHoneySettings userId
             (mkSettings (tokens (getHoneySettings userId users) ++ [token])
                (repeatOnEntry (getHoneySettings userId users))) users).
Proof.
  unfold addHoneyToken.
  destruct (Nat.leb_spec 10 (length (tokens (getHoneySettings userId users))));
    [by left|].
  destruct (hasAddress _ _) eqn:Hdup; [by left|]. right.
  split_and!; try done.
  intros (t & Heq & Hin)%list_elem_of_fmap.
  assert (hasAddress (address token) (tokens (getHoneySettings userId users))
          = true) as Hdup' by (apply hasAddress_spec; by exists t).
  congruence.
Qed.

(** X14. Adding a token and removing its address again gives back the
    settings as they read before: for a user with fewer than ten tokens
    and none at that address, the add succeeds and the remove leaves the
    earlier tokens, in their order, and [repeatOnEntry]. *)
Theorem addHoneyToken_then_remove (userId : string) (token : HoneyToken)
    (users : Users) :
  (length (tokens (getHoneySettings userId users)) < 10)%nat ->
  (forall t, t ∈ tokens (getHoneySettings userId users) ->
             address t <> address token) ->
  (addHoneyToken userId token users).1 = Returned
  /\ getHoneySettings userId
       (removeHoneyToken userId (address token)
          (addHoneyToken userId token users).2)
     = getHoneySettings userId users.
Proof.
  intros Hlen Hnew. rewrite addHoneyToken_added by done. simpl.
  split; [done|]. unfold removeHoneyToken.
  rewrite !getHoneySettings_set. simpl.
  rewrite List.filter_app, without_absent by done. simpl.
  rewrite String.eqb_refl. simpl. rewrite app_nil_r.
  by destruct (getHoneySettings userId users).
Qed.

Lemma addHoneyToken_then_remove_witness :
  getHoneySettings "alice"
    (removeHoneyToken "alice" "A1"
       (addHoneyToken "alice" (Scenario.tokenAt "A1")
          (Scenario.holding [Scenario.tokenAt "A0"])).2)
  = mkSettings [Scenario.tokenAt "A0"] true.
Proof.
  assert (forall t, t ∈ tokens (getHoneySettings "alice"
                                 (Scenario.holding [Scenario.tokenAt "A0"])) ->
                    address t <> address (Scenario.tokenAt "A1")) as Hnew.
  { intros t Hin. apply list_elem_of_In in Hin as [<-|[]]. discriminate. }
  destruct (addHoneyToken_then_remove "alice" (Scenario.tokenAt "A1")
              (Scenario.holding [Scenario.tokenAt "A0"])
              ltac:(vm_compute; lia) Hnew) as [_ Hback].
  etrans; [exact Hback | vm_compute; reflexivity].
Defined.

(** X15. The three mutators keep the store well formed: if a user's
    settings hold at most ten tokens, no two at the same address, the same
    is true after [addHoneyToken] (thrown or not), after [removeHoneyToken]
    and after [resetHoneyTokens]. *)
Theorem mutators_keep_store_well_formed (userId a : string) (token : HoneyToken)
    (users : Users) :
  wellFormed (getHoneySettings userId users) ->
  wellFormed (getHoneySettings userId (addHoneyToken userId token users).2)
  /\ wellFormed (getHoneySettings userId (removeHoneyToken userId a users))
  /\ wellFormed (getHoneySettings userId (resetHoneyTokens userId users)).
Proof.
  intros [Hlen Hnd]. split_and!.
  - destruct (addHoneyToken_outcomes userId token users)
      as [->|(Hroom & Hnew & ->)]; [by split|].
    rewrite getHoneySettings_set. split; simpl.
    + rewrite length_app. simpl. lia.
    + rewrite fmap_app. apply NoDup_app. split_and!; [done| |apply NoDup_singleton].
      intros x Hx [->|[]%elem_of_nil]%elem_of_cons. done.
  - unfold removeHoneyToken. rewrite getHoneySettings_set. split; simpl.
    + pose proof (filter_length_le
                    (fun t => negb (String.eqb (address t) a))
                    (tokens (getHoneySettings userId users))). lia.
    + eapply sublist_NoDup; [exact Hnd|]. apply fmap_sublist, without_sublist.
  - unfold resetHoneyTokens. rewrite getHoneySettings_set.
    split; simpl; [lia | constructor].
Qed.

Lemma mutators_keep_store_well_formed_witness :
  wellFormed (getHoneySettings "alice"
                (addHoneyToken "alice" (Scenario.tokenAt "B")
                   (Scenario.holding Scenario.tenTokens)).2)
  /\ wellFormed (getHoneySettings "alice"
                  (removeHoneyToken "alice" "A3"
                     (Scenario.holding Scenario.tenTokens))).
Proof.
  assert (wellFormed (getHoneySettings "alice"
                        (Scenario.holding Scenario.tenTokens))) as Hwf.
  { split; [vm_compute; lia|].
    apply (bool_decide_unpack _). vm_compute. reflexivity. }
  destruct (mutators_keep_store_well_formed "alice" "A3" (Scenario.tokenAt "B")
              (Scenario.holding Scenario.tenTokens) Hwf) as (Hadd & Hrem & _).
  split; [exact Hadd | exact Hrem].
Defined.

(** X16. [resetHoneyTokens] leaves no token and turns [repeatOnEntry] on,
    whatever it was, and keeps the wallet: for a user with a secret, a pass
    run after the reset calls no collaborator, returns and changes
    nothing. *)
Theorem resetHoneyTokens_clears {World : Type}
    (getPrice : string -> World -> option float * World)
    (autoBuy autoSell : string -> float -> string -> World -> option string * World)
    (userId : string) (users : Users) (w : World) :
  getHoneySettings userId (resetHoneyTokens userId users) = mkSettings [] true
  /\ (~ noWallet userId users ->
      executeHoneyStrategy getPrice autoBuy autoSell userId
        (resetHoneyTokens userId users) w
      = (Returned, resetHoneyTokens userId users, w)).
Proof.
  split; [apply getHoneySettings_set|].
  intros Hwallet. unfold noWallet in Hwallet.
  destruct (users !! userId) as [u|] eqn:Hu; [|by destruct Hwallet].
  destruct (secret u) as [[|c s]|] eqn:Hs;
    [destruct Hwallet; by right| |destruct Hwallet; by left].
  assert (setHoneySettings userId defaultSettings users !! userId
          = Some (mkUser (Some (String c s)) (Some (store defaultSettings))
                    (profile u))) as Hrec.
  { unfold setHoneySettings. by rewrite Hu, lookup_insert_eq, Hs. }
  unfold resetHoneyTokens, executeHoneyStrategy.
  rewrite Hrec, getHoneySettings_set. simpl.
  by rewrite setHoneySettings_twice.
Qed.

Lemma resetHoneyTokens_clears_witness :
  Scenario.pass 100 (resetHoneyTokens "alice" (Scenario.holding Scenario.tenTokens))
    Scenario.quiet
  = (Returned, resetHoneyTokens "alice" (Scenario.holding Scenario.tenTokens),
     Scenario.quiet).
Proof.
  destruct (resetHoneyTokens_clears (Scenario.priceIs 100) Scenario.buyResolves
              Scenario.sellPlanned "alice" (Scenario.holding Scenario.tenTokens)
              Scenario.quiet) as [_ Hpass].
  apply Hpass. vm_compute. intros [?|?]; discriminate.
Defined.

(** X17. For a user id without a record, [addHoneyToken] and
    [removeHoneyToken] both create one, without a secret: the added token
    is stored, and a pass for that user still throws the wallet error and
    leaves the token as it was added. *)
Theorem unknown_user_gets_a_record {World : Type}
    (getPrice : string -> World -> option float * World)
    (autoBuy autoSell : string -> float -> string -> World -> option string * World)
    (userId a : string) (token : HoneyToken) (users : Users) (w : World) :
  users !! userId = None ->
  addHoneyToken userId token users
  = (Returned,
     <[userId := mkUser None (Some (mkStored (Some [token]) (Some true))) ∅]> users)
  /\ removeHoneyToken userId a users
     = <[userId := mkUser None (Some (mkStored (Some []) (Some true))) ∅]> users
  /\ executeHoneyStrategy getPrice autoBuy autoSell userId
       (addHoneyToken userId token users).2 w
     = (Thrown walletMessage, (addHoneyToken userId token users).2, w).
Proof.
  intros Habsent.
  assert (getHoneySettings userId users = defaultSettings) as Hget
    by (unfold getHoneySettings; by rewrite Habsent).
  assert (addHoneyToken userId token users
          = (Returned,
             <[userId := mkUser None (Some (mkStored (Some [token]) (Some true))) ∅]>
               users)) as Hadd.
  { unfold addHoneyToken. rewrite Hget. simpl.
    unfold setHoneySettings. by rewrite Habsent. }
  split_and!; [exact Hadd| |].
  - unfold removeHoneyToken. rewrite Hget. simpl.
    unfold setHoneySettings. by rewrite Habsent.
  - rewrite Hadd. simpl. unfold executeHoneyStrategy.
    by rewrite lookup_insert_eq.
Qed.

Lemma unknown_user_gets_a_record_witness :
  Scenario.pass 100 (addHoneyToken "alice" Scenario.fresh ∅).2 Scenario.quiet
  = (Thrown walletMessage, (addHoneyToken "alice" Scenario.fresh ∅).2, Scenario.quiet)
  /\ Scenario.tokensOf (addHoneyToken "alice" Scenario.fresh ∅).2 = [Scenario.fresh].
Proof.
  destruct (unknown_user_gets_a_record (Scenario.priceIs 100) Scenario.buyResolves
              Scenario.sellPlanned "alice" "MINT" Scenario.fresh ∅ Scenario.quiet
              (lookup_empty _)) as (_ & _ & Hpass).
  split; [exact Hpass | vm_compute; reflexivity].
Defined.

End StoreLaws.

(** ** Laws of the trading pass *)

Module PassLaws.
Import UserStrategy UserStrategyFacts Laws.

(** *** Comparisons of binary64 values *)

Lemma ltb_irrefl (x : float) : PrimFloat.ltb x x = false.
Proof.
  rewrite FloatAxioms.ltb_spec. unfold SpecFloat.SFltb.
  destruct (Prim2SF x) as [s|s| |s m e]; simpl; try done.
  - by destruct s.
  - destruct s; by rewrite Z.compare_refl, Pos.compare_cont_refl.
Qed.

(** *** Fields the loop does not write *)

Lemma sameConfig_refl t : sameConfig t t.
Proof. by repeat split. Qed.

Lemma sameConfig_trans t1 t2 t3 :
  sameConfig t1 t2 -> sameConfig t2 t3 -> sameConfig t1 t3.
Proof.
  intros (?&?&?&?) (?&?&?&?). repeat split; congruence.
Qed.

Lemma afterSell_config p i txId t :
  sameConfig t (afterSell p i txId t)
  /\ lastEntryPrice (afterSell p i txId t) = lastEntryPrice t.
Proof.
  unfold afterSell. simpl.
  by destruct (length (profitPercents t) <=? S i)%nat.
Qed.

Section LoopFacts.

Context {World : Type}.
Variable getPrice : string -> World -> option float * World.
Variable autoBuy : string -> float -> string -> World -> option string * World.
Variable autoSell : string -> float -> string -> World -> option string * World.

Lemma stageStep_cases walletSecret p i t (w : World) :
  let r := stageStep autoSell walletSecret p i t w in
  r = (t, w)
  \/ (stageFires p i t = true
      /\ ((exists txId, r.1 = afterSell p i txId t) \/ r.1 = setStatus error t)).
Proof.
  unfold stageStep. destruct (stageFires p i t); [|by left]. right.
  split; [done|].
  destruct (autoSell _ _ _ _) as [[txId|] w']; simpl; eauto.
Qed.

Lemma stageStep_config walletSecret p i t (w : World) :
  sameConfig t (stageStep autoSell walletSecret p i t w).1
  /\ lastEntryPrice (stageStep autoSell walletSecret p i t w).1 = lastEntryPrice t.
Proof.
  destruct (stageStep_cases walletSecret p i t w)
    as [->|(_ & [[txId ->]| ->])]; simpl.
  - split; [apply sameConfig_refl | done].
  - apply afterSell_config.
  - by repeat split.
Qed.

Lemma profitStages_config walletSecret p n : forall i t (w : World),
  sameConfig t (profitStages autoSell walletSecret p n i t w).1
  /\ lastEntryPrice (profitStages autoSell walletSecret p n i t w).1
     = lastEntryPrice t.
Proof.
  induction n as [|n IH]; intros i t w; simpl.
  - split; [apply sameConfig_refl | done].
  - pose proof (stageStep_config walletSecret p i t w) as [Hc He].
    destruct (stageStep autoSell walletSecret p i t w) as [t1 w1]. simpl in *.
    destruct (IH (S i) t1 w1) as [Hc' He']. split.
    + by eapply sameConfig_trans.
    + congruence.
Qed.

Lemma evalToken_config walletSecret repeat t (w : World) :
  sameConfig t (evalToken getPrice autoBuy autoSell walletSecret repeat t w).1.
Proof.
  unfold evalToken.
  destruct (missingData t); [by repeat split|].
  destruct (JS.truthyOptBool (finished t)); [by repeat split|].
  destruct (getPrice (address t) w) as [[p|] w1]; [|by repeat split].
  destruct (negb (JS.truthyOptNum (lastEntryPrice t))).
  - destruct (autoBuy _ _ _ _) as [[txId|] w2]; by repeat split.
  - pose proof (profitStages_config walletSecret p
                  (length (profitPercents t) - startStage t) (startStage t) t w1)
      as [Hc _].
    destruct (profitStages _ _ _ _ _ _ _) as [t1 w2]. simpl in *.
    destruct (repeatCondition repeat p t1); simpl; [|done].
    eapply sameConfig_trans; [exact Hc|]. by repeat split.
Qed.

Lemma evalTokens_config walletSecret repeat l : forall (w : World),
  Forall2 sameConfig l
    (evalTokens getPrice autoBuy autoSell walletSecret repeat l w).1.
Proof.
  induction l as [|t l IH]; intros w; simpl; [constructor|].
  pose proof (evalToken_config walletSecret repeat t w) as Hc.
  destruct (evalToken _ _ _ _ _ _ _) as [t' w1]. simpl in Hc.
  specialize (IH w1). destruct (evalTokens _ _ _ _ _ _ _) as [l' w2].
  by constructor.
Qed.

(** Once [lastSellPrice] is the current price, and that price is not zero
    or NaN, no stage fires. *)
Lemma stageFires_after_sale p i t :
  lastSellPrice t = Some p -> JS.truthyNum p = true -> stageFires p i t = false.
Proof.
  intros Hl Hp. unfold stageFires. rewrite Hl. simpl.
  rewrite Hp, ltb_irrefl. apply andb_false_r.
Qed.

Lemma profitStages_silent walletSecret p n : forall i t (w : World),
  lastSellPrice t = Some p -> JS.truthyNum p = true ->
  profitStages autoSell walletSecret p n i t w = (t, w).
Proof.
  induction n as [|n IH]; intros i t w Hl Hp; simpl; [done|].
  unfold stageStep. rewrite stageFires_after_sale by done. by apply IH.
Qed.

End LoopFacts.

(** X18. A pass never rewrites what the user configured: whatever the
    collaborators answer, the tokens read after the pass are as many as
    before, in the same order, each with the address, amount and stage
    arrays it had. *)
Theorem pass_keeps_configuration {World : Type}
    (getPrice : string -> World -> option float * World)
    (autoBuy autoSell : string -> float -> string -> World -> option string * World)
    (userId : string) (users : Users) (w : World) :
  Forall2 sameConfig
    (tokens (getHoneySettings userId users))
    (tokens (getHoneySettings userId
               (executeHoneyStrategy getPrice autoBuy autoSell userId users w).1.2)).
Proof.
  assert (Forall2 sameConfig (tokens (getHoneySettings userId users))
            (tokens (getHoneySettings userId users))) as Hsame.
  { apply Forall_Forall2_diag, Forall_forall. intros t _. apply sameConfig_refl. }
  unfold executeHoneyStrategy.
  destruct (users !! userId) as [u|]; [|done].
  destruct (secret u) as [s|]; [|done].
  destruct (negb (JS.truthyStr s)); [done|].
  pose proof (evalTokens_config getPrice autoBuy autoSell s
                (repeatOnEntry (getHoneySettings userId users))
                (tokens (getHoneySettings userId users)) w) as Hc.
  destruct (evalTokens _ _ _ _ _ _ _) as [l' w']. simpl in *.
  by rewrite getHoneySettings_set.
Qed.

(** X19. A pass writes one property of one record: every other user's
    record is left as it was, and the user's own record keeps its secret
    and its other properties; [repeatOnEntry] reads after the pass as it
    read before. *)
Theorem pass_touches_one_record {World : Type}
    (getPrice : string -> World -> option float * World)
    (autoBuy autoSell : string -> float -> string -> World -> option string * World)
    (userId : string) (users : Users) (w : World) :
  let users' := (executeHoneyStrategy getPrice autoBuy autoSell userId users w).1.2 in
  (forall other, other <> userId -> users' !! other = users !! other)
  /\ secret <$> users' !! userId = secret <$> users !! userId
  /\ profile <$> users' !! userId = profile <$> users !! userId
  /\ repeatOnEntry (getHoneySettings userId users')
     = repeatOnEntry (getHoneySettings userId users).
Proof.
  unfold executeHoneyStrategy.
  destruct (users !! userId) as [u|] eqn:Hu; [|by simpl; rewrite Hu; split_and!].
  destruct (secret u) as [s|] eqn:Hs; [|by simpl; rewrite Hu; split_and!].
  destruct (negb (JS.truthyStr s)); [by simpl; rewrite Hu; split_and!|].
  destruct (evalTokens _ _ _ _ _ _ _) as [l' w']. simpl.
  rewrite getHoneySettings_set. unfold setHoneySettings.
  rewrite ?Hu, lookup_insert_eq. simpl. split_and!; try done.
  intros other Hne. by rewrite lookup_insert_ne.
Qed.

(** X20. At most one sale goes through per token and pass when the price
    is not zero: once the sale of a stage has resolved, the later stages of
    the same pass do not fire, no further call is made, and the token is
    left as that sale set it. *)
Theorem one_sale_per_pass {World : Type}
    (autoSell : string -> float -> string -> World -> option string * World)
    (walletSecret : string) (currentPrice : float) (n i : nat)
    (t : HoneyToken) (w w' : World) (txId : string) :
  JS.truthyNum currentPrice = true ->
  stageFires currentPrice i t = true ->
  autoSell (address t) (sellAmount i t) walletSecret w = (Some txId, w') ->
  profitStages autoSell walletSecret currentPrice (S n) i t w
  = (afterSell currentPrice i txId t, w').
Proof.
  intros Hp Hf Hs. rewrite (profitStages_sold autoSell _ _ _ _ _ w w' txId) by done.
  apply profitStages_silent; [|done].
  by destruct (afterSell_fields currentPrice i txId t) as [? _].
Qed.

(** At 126 both targets of the entered token are reached, and only stage 0
    is sold. With a price of zero the guard does not hold: the token
    entered at -1 sells both stages in the one pass. *)
Lemma one_sale_per_pass_witness :
  profitStages Scenario.sellPlanned "s3cr3t" 126 2 0 Scenario.entered Scenario.quiet
  = (Scenario.halfSold 126,
     Scenario.mkWorld [Scenario.SellCall "MINT" 0.5 "s3cr3t"] [])
  /\ Scenario.callsAfter
       (Scenario.pass 0 (Scenario.holding [Scenario2.belowZero]) Scenario.quiet)
     = [Scenario.PriceCall "MINT"; Scenario.SellCall "MINT" 0.5 "s3cr3t";
        Scenario.SellCall "MINT" 0.5 "s3cr3t"].
Proof.
  split; [|vm_compute; reflexivity].
  exact (one_sale_per_pass Scenario.sellPlanned "s3cr3t" 126%float 1%nat 0%nat
           Scenario.entered Scenario.quiet
           (Scenario.mkWorld [Scenario.SellCall "MINT" 0.5 "s3cr3t"] [])
           "sell-tx" eq_refl eq_refl eq_refl).
Defined.






(** X22. With [repeatOnEntry] off a pass never clears an entry price: a
    token whose entry price is truthy before the pass (set, and neither 0
    nor NaN) has the same one after it, whatever the price and whatever the
    collaborators answer. *)
Theorem entry_price_stays_without_repeat {World : Type}
    (getPrice : string -> World -> option float * World)
    (autoBuy autoSell : string -> float -> string -> World -> option string * World)
    (walletSecret : string) (t : HoneyToken) (w : World) :
  JS.truthyOptNum (lastEntryPrice t) = true ->
  lastEntryPrice (evalToken getPrice autoBuy autoSell walletSecret false t w).1
  = lastEntryPrice t.
Proof.
  intros Hentry. unfold evalToken.
  destruct (missingData t); [done|].
  destruct (JS.truthyOptBool (finished t)); [done|].
  destruct (getPrice (address t) w) as [[p|] w1]; [|done].
  rewrite Hentry. simpl.
  pose proof (profitStages_config autoSell walletSecret p
                (length (profitPercents t) - startStage t) (startStage t) t w1)
    as [_ He].
  destruct (profitStages _ _ _ _ _ _ _) as [t1 w2]. simpl in He.
  assert (repeatCondition false p t1 = false) as ->; [|done].
  unfold repeatCondition. by rewrite andb_false_r.
Qed.

Lemma entry_price_stays_without_repeat_witness :
  lastEntryPrice
    (evalToken (Scenario.priceIs 90) Scenario.buyResolves Scenario.sellPlanned
       "s3cr3t" false Scenario.entered Scenario.quiet).1 = Some 100%float.
Proof.
  exact (entry_price_stays_without_repeat (Scenario.priceIs 90)
           Scenario.buyResolves Scenario.sellPlanned "s3cr3t" Scenario.entered
           Scenario.quiet eq_refl).
Defined.

Lemma profitStages_consistent {World : Type}
    (autoSell : string -> float -> string -> World -> option string * World)
    walletSecret p n : forall i t (w : World),
  (n + i <= length (profitPercents t))%nat ->
  JS.truthyOptBool (finished t) = false ->
  (startStage t <= length (profitPercents t))%nat ->
  consistent (profitStages autoSell walletSecret p n i t w).1.
Proof.
  induction n as [|n IH]; intros i t w Hn Hfin Hstage.
  - simpl. split; [|done]. intros Ht. by rewrite Ht in Hfin.
  - cbn [profitStages].
    pose proof (stageStep_cases autoSell walletSecret p i t w) as Hcases.
    destruct (stageStep autoSell walletSecret p i t w) as [t1 w1].
    simpl in Hcases.
    destruct Hcases as [[= -> ->]|(_ & [[txId ->]| ->])].
    + apply IH; [lia|done|done].
    + destruct (afterSell_fields p i txId t) as (_ & Hcur & _ & _ & Hlast & Hmid).
      destruct (afterSell_config p i txId t) as [(_ & _ & Hpp & _) _].
      destruct (Nat.le_gt_cases (length (profitPercents t)) (S i)) as [Hend|Hmore].
      * assert (n = 0)%nat as -> by lia. simpl.
        destruct (Hlast Hend) as [_ Hsold]. split; [done|].
        unfold startStage. rewrite Hcur, Hpp. lia.
      * destruct (Hmid Hmore) as [Hf _].
        apply IH; rewrite ?Hpp, ?Hf; [lia|done|].
        unfold startStage. rewrite Hcur. lia.
    + apply IH; simpl; [lia|done|done].
Qed.

(** X23. A pass leaves every token it trades in a consistent state: a
    token that passes the validation gate and whose next stage lies within
    its stage array ends the pass with its next stage still within the
    array and, if it is finished, with status [sold], whatever the price
    and whatever the collaborators answer. *)
Theorem pass_leaves_token_consistent {World : Type}
    (getPrice : string -> World -> option float * World)
    (autoBuy autoSell : string -> float -> string -> World -> option string * World)
    (walletSecret : string) (repeat : bool) (t : HoneyToken) (w : World) :
  missingData t = false ->
  (startStage t <= length (profitPercents t))%nat ->
  consistent (evalToken getPrice autoBuy autoSell walletSecret repeat t w).1.
Proof.
  intros Hgate Hstage. unfold evalToken. rewrite Hgate.
  destruct (JS.truthyOptBool (finished t)) eqn:Hfin; [by split|].
  assert (finished t = Some true -> False) as Hnot
    by (intros Ht; by rewrite Ht in Hfin).
  destruct (getPrice (address t) w) as [[p|] w1]; [|by split].
  destruct (negb (JS.truthyOptNum (lastEntryPrice t))).
  - destruct (autoBuy _ _ _ _) as [[txId|] w2]; (split; [done|]); simpl;
      [unfold startStage; simpl; lia | done].
  - pose proof (profitStages_consistent autoSell walletSecret p
                  (length (profitPercents t) - startStage t) (startStage t) t w1
                  ltac:(lia) Hfin Hstage) as Hcons.
    destruct (profitStages _ _ _ _ _ _ _) as [t1 w2]. simpl in Hcons.
    destruct (repeatCondition repeat p t1); [|done].
    split; [done|]. unfold startStage. simpl. lia.
Qed.

(** A finished token whose address was blanked fails the gate: it ends the
    pass finished and with status [error]. *)
Lemma pass_leaves_token_consistent_witness :
  consistent
    (evalToken (Scenario.priceIs 126) Scenario.buyResolves Scenario.sellPlanned
       "s3cr3t" true Scenario.entered (Scenario.mkWorld [] [false])).1
  /\ status
       (evalToken (Scenario.priceIs 126) Scenario.buyResolves Scenario.sellPlanned
          "s3cr3t" true Scenario2.blankFinished Scenario.quiet).1 = Some error
  /\ finished
       (evalToken (Scenario.priceIs 126) Scenario.buyResolves Scenario.sellPlanned
          "s3cr3t" true Scenario2.blankFinished Scenario.quiet).1 = Some true.
Proof.
  split; [|split; reflexivity].
  apply (pass_leaves_token_consistent (Scenario.priceIs 126) Scenario.buyResolves
           Scenario.sellPlanned "s3cr3t" true Scenario.entered
           (Scenario.mkWorld [] [false])); [reflexivity | vm_compute; lia].
Defined.

(** X24. A token that fails the validation gate (empty address, amount
    zero or NaN, or an empty stage array) is never traded: each pass only
    sets its status to [error] and calls no collaborator, so that any
    number of passes leaves it in that state and the world as it was. *)
Theorem invalid_token_is_never_traded {World : Type}
    (getPrice : string -> World -> option float * World)
    (autoBuy autoSell : string -> float -> string -> World -> option string * World)
    (walletSecret : string) (repeat : bool) (k : nat) (t : HoneyToken) (w : World) :
  missingData t = true ->
  evalTokenTimes getPrice autoBuy autoSell (S k) walletSecret repeat t w
  = (setStatus error t, w).
Proof.
  intros Hgate.
  assert (forall t', missingData t' = true ->
            evalToken getPrice autoBuy autoSell walletSecret repeat t' w
            = (setStatus error t', w)) as Hstep
    by (intros t' Ht'; unfold evalToken; by rewrite Ht').
  assert (forall j,
            evalTokenTimes getPrice autoBuy autoSell j walletSecret repeat
              (setStatus error t) w = (setStatus error t, w)) as Hrest.
  { induction j as [|j IH]; [done|].
    cbn [evalTokenTimes]. rewrite (Hstep (setStatus error t)) by done.
    exact IH. }
  cbn [evalTokenTimes]. rewrite (Hstep t) by done. apply Hrest.
Qed.

Lemma invalid_token_is_never_traded_witness :
  evalTokenTimes (Scenario.priceIs 126) Scenario.buyResolves Scenario.sellPlanned
    3 "s3cr3t" true Scenario2.blankFinished Scenario.quiet
  = (setStatus error Scenario2.blankFinished, Scenario.quiet).
Proof.
  exact (invalid_token_is_never_traded (Scenario.priceIs 126) Scenario.buyResolves
           Scenario.sellPlanned "s3cr3t" true 2 Scenario2.blankFinished
           Scenario.quiet eq_refl).
Defined.




(** *** The status field *)






(** *** Stage order *)

Lemma profitStages_stage_grows {World : Type}
    (autoSell : string -> float -> string -> World -> option string * World)
    walletSecret p n : forall i t (w : World),
  (startStage t <= i)%nat ->
  (startStage t <= startStage (profitStages autoSell walletSecret p n i t w).1)%nat.
Proof.
  induction n as [|n IH]; intros i t w Hi; [done|].
  cbn [profitStages].
  pose proof (stageStep_cases autoSell walletSecret p i t w) as Hcases.
  destruct (stageStep autoSell walletSecret p i t w) as [t1 w1].
  simpl in Hcases.
  destruct Hcases as [[= -> ->]|(_ & [[txId ->]| ->])].
  - apply IH. lia.
  - destruct (afterSell_fields p i txId t) as (_ & Hcur & _).
    assert (startStage (afterSell p i txId t) = S i) as Hnext
      by (unfold startStage; by rewrite Hcur).
    etrans; [|apply IH; lia]. lia.
  - apply (IH (S i) (setStatus error t) w1). simpl.
    change (startStage (setStatus error t)) with (startStage t). lia.
Qed.

(** X28. Within a position the stage index never goes back: for a token
    whose entry price is truthy (set, and neither 0 nor NaN), a pass either
    re-arms the token (the entry price is cleared) or leaves [currentStage]
    at least where it was, so a stage that has been sold is not offered
    again. *)
Theorem stage_never_goes_back {World : Type}
    (getPrice : string -> World -> option float * World)
    (autoBuy autoSell : string -> float -> string -> World -> option string * World)
    (walletSecret : string) (repeat : bool) (t : HoneyToken) (w : World) :
  JS.truthyOptNum (lastEntryPrice t) = true ->
  let t' := (evalToken getPrice autoBuy autoSell walletSecret repeat t w).1 in
  lastEntryPrice t' = None \/ (startStage t <= startStage t')%nat.
Proof.
  intros Hentry. unfold evalToken.
  destruct (missingData t); [by right|].
  destruct (JS.truthyOptBool (finished t)); [by right|].
  destruct (getPrice (address t) w) as [[p|] w1]; [|by right].
  rewrite Hentry. simpl.
  pose proof (profitStages_stage_grows autoSell walletSecret p
                (length (profitPercents t) - startStage t) (startStage t) t w1
                ltac:(lia)) as Hgrow.
  destruct (profitStages _ _ _ _ _ _ _) as [t1 w2]. simpl in Hgrow.
  destruct (repeatCondition repeat p t1); [by left | by right].
Qed.

Lemma stage_never_goes_back_witness :
  (startStage (Scenario.halfSold 111)
   <= startStage
        (evalToken (Scenario.priceIs 126) Scenario.buyResolves Scenario.sellPlanned
           "s3cr3t" false (Scenario.halfSold 111) Scenario.quiet).1)%nat.
Proof.
  destruct (stage_never_goes_back (Scenario.priceIs 126) Scenario.buyResolves
              Scenario.sellPlanned "s3cr3t" false (Scenario.halfSold 111)
              Scenario.quiet eq_refl) as [Hnone|Hle]; [discriminate Hnone|].
  exact Hle.
Defined.

End PassLaws.
